(** * SearchInterface: the search / pagination / playback coordinator

    A shallow embedding of [src/components/ui/SearchInterface.tsx].

    The component is a React function component.  Its [useState] slices
    and its [videoRefs] ref are gathered in one record [State]; every
    setter of the source is a function on that record, and every
    handler is the composition of the setters it calls, in the order in
    which it calls them.  An [async] handler is cut at its [await]: the
    part before it ([_begin]) runs when the user acts, the part after it
    ([_settle]) runs when the awaited promise settles, and other
    handlers may run in between. *)

From Stdlib Require Import Qcanon.
From stdpp Require Import gmap list numbers strings.

Open Scope Z_scope.

(** ** Strings

    A JavaScript string is a sequence of UTF-16 code units. *)

Abbreviation jsstring := (list N).

Definition lit (s : string) : jsstring :=
  (λ a : Ascii.ascii, Ascii.N_of_ascii a) <$> String.list_ascii_of_string s.

(** [WhiteSpace] and [LineTerminator] of ECMAScript, the code units that
    [String.prototype.trim] strips. *)
Definition is_white_space (c : N) : bool :=
  ((c =? 0x09) || (c =? 0x0A) || (c =? 0x0B) || (c =? 0x0C) || (c =? 0x0D)
   || (c =? 0x20) || (c =? 0xA0) || (c =? 0x1680)
   || ((0x2000 <=? c) && (c <=? 0x200A))
   || (c =? 0x2028) || (c =? 0x2029) || (c =? 0x202F) || (c =? 0x205F)
   || (c =? 0x3000) || (c =? 0xFEFF))%N.

Fixpoint trimStart (s : jsstring) : jsstring :=
  match s with
  | c :: s' => if is_white_space c then trimStart s' else s
  | [] => []
  end.

Definition trimEnd (s : jsstring) : jsstring := reverse (trimStart (reverse s)).

Definition trim (s : jsstring) : jsstring := trimEnd (trimStart s).

(** Truthiness of a string: every string but the empty one. *)
Definition truthy (s : jsstring) : bool :=
  match s with [] => false | _ :: _ => true end.

(** ** Data model *)

Record VideoSearchResult := {
  id : jsstring;
  url : jsstring;
  thumbnailUrl : option jsstring;
  title : option jsstring;
  duration : option Qc;
  startTime : option Qc;
  endTime : option Qc;
  score : Qc;
  matchType : option jsstring;
  description : option jsstring;
  transcript : option jsstring;
  createdAt : jsstring;
}.

Record Pagination := {
  pg_currentPage : Z;
  pg_totalPages : Z;
  pg_totalResults : Z;
  pg_hasMore : bool;
}.

Record SearchResponse := {
  sr_results : list VideoSearchResult;
  sr_pagination : Pagination;
}.

(** [type: "text" | "base64"] *)
Inductive QueryType := QText | QBase64.

Record SearchQuery := {
  q_type : QueryType;
  q_value : jsstring;
  q_embedding_model : jsstring;
}.

(** A browser [File]: [file_handle] stands for the identity of the
    object, [file_type] is its declared media type. *)
Record File := {
  file_handle : nat;
  file_name : jsstring;
  file_type : jsstring;
}.

(** An entry of [base64Contents]: [{ file; base64 }]. *)
Record Base64Content := {
  bc_file : File;
  bc_base64 : jsstring;
}.

Inductive Section_ := description_ | transcript_.

(** A value of [expandedSections]. *)
Record Expanded := {
  exp_description : bool;
  exp_transcript : bool;
}.

(** What the component reads and writes of a [<video>] element. *)
Record HTMLVideoElement := {
  paused : bool;
  currentTime : Qc;
}.

(** The body of the POST to [/api/search]. *)
Record SearchPayload := {
  queries : list SearchQuery;
  page : Z;
  page_size : Z;
}.

(** A value that a [try] block of the component throws: the [Error]
    built from the text of a non-ok response, a failure of [fetch] or of
    [response.json()], or a [TypeError] of the block itself (a property
    read of [null] or [undefined], or [JSON.stringify] on a value with a
    cycle). *)
Inductive Thrown :=
| ErrorOf (message : jsstring)
| FetchRejected
| JsonRejected
| TypeErrorThrown.

(** One call of [console.error(label, err)]. *)
Inductive Logged :=
| LogSearch (err : Thrown)
| LogPagination (err : Thrown)
| LogFileProcessing
| LogPlayback.

Record State := {
  searchTerm : jsstring;
  hasSearched : bool;
  results : list VideoSearchResult;
  loading : bool;
  error : jsstring;
  activeVideoId : option jsstring;
  isPlaying : gmap jsstring bool;
  videoRefs : gmap jsstring HTMLVideoElement;
  expandedSections : gmap jsstring Expanded;
  selectedFiles : list File;
  base64Contents : list Base64Content;
  currentPage : Z;
  totalPages : Z;
  totalResults : Z;
  lastSearchQueries : list SearchQuery;
  console : list Logged;
}.

Definition pageSize : Z := 10.

(** The state of a freshly mounted component. *)
Definition initial : State := {|
  searchTerm := []; hasSearched := false; results := []; loading := false;
  error := []; activeVideoId := None; isPlaying := ∅; videoRefs := ∅;
  expandedSections := ∅; selectedFiles := []; base64Contents := [];
  currentPage := 1; totalPages := 0; totalResults := 0;
  lastSearchQueries := []; console := [];
|}.

(** ** Setters

    [setX v] is the source's [setX(v)]; the setters of the slices that
    the source updates with a function of the previous value take that
    function. *)

Definition setSearchTerm (v : jsstring) (s : State) : State :=
  {| searchTerm := v; hasSearched := hasSearched s; results := results s;
     loading := loading s; error := error s; activeVideoId := activeVideoId s;
     isPlaying := isPlaying s; videoRefs := videoRefs s;
     expandedSections := expandedSections s; selectedFiles := selectedFiles s;
     base64Contents := base64Contents s; currentPage := currentPage s;
     totalPages := totalPages s; totalResults := totalResults s;
     lastSearchQueries := lastSearchQueries s; console := console s |}.

Definition setHasSearched (v : bool) (s : State) : State :=
  {| searchTerm := searchTerm s; hasSearched := v; results := results s;
     loading := loading s; error := error s; activeVideoId := activeVideoId s;
     isPlaying := isPlaying s; videoRefs := videoRefs s;
     expandedSections := expandedSections s; selectedFiles := selectedFiles s;
     base64Contents := base64Contents s; currentPage := currentPage s;
     totalPages := totalPages s; totalResults := totalResults s;
     lastSearchQueries := lastSearchQueries s; console := console s |}.

Definition setResults (v : list VideoSearchResult) (s : State) : State :=
  {| searchTerm := searchTerm s; hasSearched := hasSearched s; results := v;
     loading := loading s; error := error s; activeVideoId := activeVideoId s;
     isPlaying := isPlaying s; videoRefs := videoRefs s;
     expandedSections := expandedSections s; selectedFiles := selectedFiles s;
     base64Contents := base64Contents s; currentPage := currentPage s;
     totalPages := totalPages s; totalResults := totalResults s;
     lastSearchQueries := lastSearchQueries s; console := console s |}.

Definition setLoading (v : bool) (s : State) : State :=
  {| searchTerm := searchTerm s; hasSearched := hasSearched s;
     results := results s; loading := v; error := error s;
     activeVideoId := activeVideoId s;
     isPlaying := isPlaying s; videoRefs := videoRefs s;
     expandedSections := expandedSections s; selectedFiles := selectedFiles s;
     base64Contents := base64Contents s; currentPage := currentPage s;
     totalPages := totalPages s; totalResults := totalResults s;
     lastSearchQueries := lastSearchQueries s; console := console s |}.

Definition setError (v : jsstring) (s : State) : State :=
  {| searchTerm := searchTerm s; hasSearched := hasSearched s;
     results := results s; loading := loading s; error := v;
     activeVideoId := activeVideoId s;
     isPlaying := isPlaying s; videoRefs := videoRefs s;
     expandedSections := expandedSections s; selectedFiles := selectedFiles s;
     base64Contents := base64Contents s; currentPage := currentPage s;
     totalPages := totalPages s; totalResults := totalResults s;
     lastSearchQueries := lastSearchQueries s; console := console s |}.

Definition setActiveVideoId (v : option jsstring) (s : State) : State :=
  {| searchTerm := searchTerm s; hasSearched := hasSearched s;
     results := results s; loading := loading s; error := error s;
     activeVideoId := v;
     isPlaying := isPlaying s; videoRefs := videoRefs s;
     expandedSections := expandedSections s; selectedFiles := selectedFiles s;
     base64Contents := base64Contents s; currentPage := currentPage s;
     totalPages := totalPages s; totalResults := totalResults s;
     lastSearchQueries := lastSearchQueries s; console := console s |}.

Definition setIsPlaying (f : gmap jsstring bool → gmap jsstring bool)
    (s : State) : State :=
  {| searchTerm := searchTerm s; hasSearched := hasSearched s;
     results := results s; loading := loading s; error := error s;
     activeVideoId := activeVideoId s;
     isPlaying := f (isPlaying s); videoRefs := videoRefs s;
     expandedSections := expandedSections s; selectedFiles := selectedFiles s;
     base64Contents := base64Contents s; currentPage := currentPage s;
     totalPages := totalPages s; totalResults := totalResults s;
     lastSearchQueries := lastSearchQueries s; console := console s |}.

(** A write through [videoRefs.current]. *)
Definition setVideoRefs
    (f : gmap jsstring HTMLVideoElement → gmap jsstring HTMLVideoElement)
    (s : State) : State :=
  {| searchTerm := searchTerm s; hasSearched := hasSearched s;
     results := results s; loading := loading s; error := error s;
     activeVideoId := activeVideoId s;
     isPlaying := isPlaying s; videoRefs := f (videoRefs s);
     expandedSections := expandedSections s; selectedFiles := selectedFiles s;
     base64Contents := base64Contents s; currentPage := currentPage s;
     totalPages := totalPages s; totalResults := totalResults s;
     lastSearchQueries := lastSearchQueries s; console := console s |}.

Definition setExpandedSections
    (f : gmap jsstring Expanded → gmap jsstring Expanded) (s : State) : State :=
  {| searchTerm := searchTerm s; hasSearched := hasSearched s;
     results := results s; loading := loading s; error := error s;
     activeVideoId := activeVideoId s;
     isPlaying := isPlaying s; videoRefs := videoRefs s;
     expandedSections := f (expandedSections s);
     selectedFiles := selectedFiles s;
     base64Contents := base64Contents s; currentPage := currentPage s;
     totalPages := totalPages s; totalResults := totalResults s;
     lastSearchQueries := lastSearchQueries s; console := console s |}.

Definition setSelectedFiles (f : list File → list File) (s : State) : State :=
  {| searchTerm := searchTerm s; hasSearched := hasSearched s;
     results := results s; loading := loading s; error := error s;
     activeVideoId := activeVideoId s;
     isPlaying := isPlaying s; videoRefs := videoRefs s;
     expandedSections := expandedSections s;
     selectedFiles := f (selectedFiles s);
     base64Contents := base64Contents s; currentPage := currentPage s;
     totalPages := totalPages s; totalResults := totalResults s;
     lastSearchQueries := lastSearchQueries s; console := console s |}.

Definition setBase64Contents
    (f : list Base64Content → list Base64Content) (s : State) : State :=
  {| searchTerm := searchTerm s; hasSearched := hasSearched s;
     results := results s; loading := loading s; error := error s;
     activeVideoId := activeVideoId s;
     isPlaying := isPlaying s; videoRefs := videoRefs s;
     expandedSections := expandedSections s;
     selectedFiles := selectedFiles s;
     base64Contents := f (base64Contents s); currentPage := currentPage s;
     totalPages := totalPages s; totalResults := totalResults s;
     lastSearchQueries := lastSearchQueries s; console := console s |}.

Definition setCurrentPage (v : Z) (s : State) : State :=
  {| searchTerm := searchTerm s; hasSearched := hasSearched s;
     results := results s; loading := loading s; error := error s;
     activeVideoId := activeVideoId s;
     isPlaying := isPlaying s; videoRefs := videoRefs s;
     expandedSections := expandedSections s;
     selectedFiles := selectedFiles s;
     base64Contents := base64Contents s; currentPage := v;
     totalPages := totalPages s; totalResults := totalResults s;
     lastSearchQueries := lastSearchQueries s; console := console s |}.

Definition setTotalPages (v : Z) (s : State) : State :=
  {| searchTerm := searchTerm s; hasSearched := hasSearched s;
     results := results s; loading := loading s; error := error s;
     activeVideoId := activeVideoId s;
     isPlaying := isPlaying s; videoRefs := videoRefs s;
     expandedSections := expandedSections s;
     selectedFiles := selectedFiles s;
     base64Contents := base64Contents s; currentPage := currentPage s;
     totalPages := v; totalResults := totalResults s;
     lastSearchQueries := lastSearchQueries s; console := console s |}.

Definition setTotalResults (v : Z) (s : State) : State :=
  {| searchTerm := searchTerm s; hasSearched := hasSearched s;
     results := results s; loading := loading s; error := error s;
     activeVideoId := activeVideoId s;
     isPlaying := isPlaying s; videoRefs := videoRefs s;
     expandedSections := expandedSections s;
     selectedFiles := selectedFiles s;
     base64Contents := base64Contents s; currentPage := currentPage s;
     totalPages := totalPages s; totalResults := v;
     lastSearchQueries := lastSearchQueries s; console := console s |}.

Definition setLastSearchQueries (v : list SearchQuery) (s : State) : State :=
  {| searchTerm := searchTerm s; hasSearched := hasSearched s;
     results := results s; loading := loading s; error := error s;
     activeVideoId := activeVideoId s;
     isPlaying := isPlaying s; videoRefs := videoRefs s;
     expandedSections := expandedSections s;
     selectedFiles := selectedFiles s;
     base64Contents := base64Contents s; currentPage := currentPage s;
     totalPages := totalPages s; totalResults := totalResults s;
     lastSearchQueries := v; console := console s |}.

(** [console.error]: the call is appended to the log. *)
Definition console_error (l : Logged) (s : State) : State :=
  {| searchTerm := searchTerm s; hasSearched := hasSearched s;
     results := results s; loading := loading s; error := error s;
     activeVideoId := activeVideoId s;
     isPlaying := isPlaying s; videoRefs := videoRefs s;
     expandedSections := expandedSections s;
     selectedFiles := selectedFiles s;
     base64Contents := base64Contents s; currentPage := currentPage s;
     totalPages := totalPages s; totalResults := totalResults s;
     lastSearchQueries := lastSearchQueries s; console := console s ++ [l] |}.

(** Sequencing of statements, read left to right. *)
Notation "s |> f" := (f s) (at level 45, left associativity, only parsing).

(** ** Disclosure state: [toggleSection] *)

Definition get_section (section : Section_) (e : Expanded) : bool :=
  match section with
  | description_ => exp_description e
  | transcript_ => exp_transcript e
  end.

(** [{ ...e, [section]: v }] *)
Definition set_section (section : Section_) (v : bool) (e : Expanded) : Expanded :=
  match section with
  | description_ => {| exp_description := v; exp_transcript := exp_transcript e |}
  | transcript_ => {| exp_description := exp_description e; exp_transcript := v |}
  end.

(** [m[resultId]?.[section]], read as a condition: an absent entry gives
    [undefined], which is false. *)
Definition expanded (m : gmap jsstring Expanded) (resultId : jsstring)
    (section : Section_) : bool :=
  default false (get_section section <$> m !! resultId).

Definition toggleSection (resultId : jsstring) (section : Section_)
    (s : State) : State :=
  s |> setExpandedSections (λ prev,
    <[resultId :=
        set_section section
          (negb (default false (get_section section <$> prev !! resultId)))
          (default {| exp_description := false; exp_transcript := false |}
                   (prev !! resultId))]> prev).

(** ** Uploads: [handleFileSelect], [removeImage], "Remove All" *)

Definition validImageTypes : list jsstring :=
  [lit "image/jpeg"; lit "image/png"; lit "image/jpg"].

(** The part of [handleFileSelect] before [await Promise.all(...)]: the
    new state and, when the handler goes on, the [validFiles] that its
    continuation closes over. *)
Definition handleFileSelect_begin (files : list File) (s : State)
    : State * option (list File) :=
  if (length files =? 0)%nat then (s, None)
  else
    let validFiles := filter (λ file, file_type file ∈ validImageTypes) files in
    (if negb (length validFiles =? length files)%nat
     then s |> setError
            (lit "Some files were skipped. Please upload only JPG or PNG files")
     else s,
     Some validFiles).

(** [Promise.all(validFiles.map(async (file) => ({ file, base64: await
    fileToBase64(file) })))]: [fileToBase64] is the browser's
    [FileReader]; [reader file] is what it gives for [file], [None] when
    it rejects.  The array keeps the order of [validFiles], and one
    rejection rejects the whole. *)
Definition read_all (reader : File → option jsstring) (validFiles : list File)
    : option (list Base64Content) :=
  mapM (λ file, base64 ← reader file;
                Some {| bc_file := file; bc_base64 := base64 |}) validFiles.

Definition handleFileSelect_settle (validFiles : list File)
    (reader : File → option jsstring) (s : State) : State :=
  match read_all reader validFiles with
  | Some newBase64Contents =>
      s |> setSelectedFiles (λ prev, prev ++ validFiles)
        |> setBase64Contents (λ prev, prev ++ newBase64Contents)
  | None =>
      s |> setError (lit "Failed to process one or more files")
        |> console_error LogFileProcessing
  end.

Definition handleFileSelect (files : list File)
    (reader : File → option jsstring) (s : State) : State :=
  match handleFileSelect_begin files s with
  | (s1, Some validFiles) => handleFileSelect_settle validFiles reader s1
  | (s1, None) => s1
  end.

(** [l.filter((_, i) => i !== index)], the indices counted from [i]. *)
Fixpoint filter_index_ne {A} (index : Z) (i : nat) (l : list A) : list A :=
  match l with
  | [] => []
  | x :: l' =>
      if Z.of_nat i =? index then filter_index_ne index (S i) l'
      else x :: filter_index_ne index (S i) l'
  end.

Definition removeImage (index : Z) (s : State) : State :=
  s |> setSelectedFiles (filter_index_ne index 0)
    |> setBase64Contents (filter_index_ne index 0).

(** The [onClick] of the "Remove All" button. *)
Definition removeAll (s : State) : State :=
  s |> setSelectedFiles (λ _, []) |> setBase64Contents (λ _, []).

(** ** Search: [handleSearch] *)

(** An ok body that parses as JSON and is no [SearchResponse]: the
    annotation [const data: SearchResponse] checks nothing when the
    code runs.  [BodyNull] is the body [null], on which [data.results]
    throws; [BodyWithoutPagination results] has the list of results and
    no [pagination], so that [data.pagination.currentPage] throws.
    Bodies that would put a value of another type into the state (a
    [results] that is no array, a page number that is no number) are
    not modelled: the state holds lists and integers. *)
Inductive Malformed :=
| BodyNull
| BodyWithoutPagination (results : list VideoSearchResult).

(** What [fetch] and the reading of the response give: [fetch] rejects,
    or a response arrives with its [ok] flag, its body as text, and its
    body parsed as JSON into a [SearchResponse] ([None] when
    [response.json()] rejects), or an ok response arrives whose body
    parses into something else. *)
Inductive FetchOutcome :=
| FetchFailed
| Responded (ok : bool) (text : jsstring) (json : option SearchResponse)
| RespondedMalformed (text : jsstring) (body : Malformed).

(** The [queries] array that [handleSearch] builds. *)
Definition build_queries (s : State) : list SearchQuery :=
  (if truthy (trim (searchTerm s))
   then [{| q_type := QText; q_value := searchTerm s;
            q_embedding_model := lit "multimodal" |}]
   else [])
  ++ ((λ c, {| q_type := QBase64; q_value := bc_base64 c;
               q_embedding_model := lit "multimodal" |}) <$> base64Contents s).

(** [handleSearch], called with a number for [page], up to [await
    fetch(...)]: the new state and the payload of the request, [None]
    when no request is made.  The call with the click event for [page]
    is [handleSearch_onClick] below. *)
Definition handleSearch_begin (page : Z) (s : State)
    : State * option SearchPayload :=
  if negb (truthy (trim (searchTerm s)))
     && (length (base64Contents s) =? 0)%nat
  then (s |> setError (lit "Please enter a search term or upload files"), None)
  else
    let queries := build_queries s in
    (s |> setLoading true |> setError [] |> setHasSearched true
       |> setLastSearchQueries queries,
     Some {| queries := queries; page := page; page_size := pageSize |}).

(** [video.pause()] and a resolved [video.play()], as far as the
    [paused] attribute goes. *)
Definition video_pause (v : HTMLVideoElement) : HTMLVideoElement :=
  {| paused := true; currentTime := currentTime v |}.

Definition video_play (v : HTMLVideoElement) : HTMLVideoElement :=
  {| paused := false; currentTime := currentTime v |}.

Definition video_seek (t : Qc) (v : HTMLVideoElement) : HTMLVideoElement :=
  {| paused := paused v; currentTime := t |}.

(** [Object.values(videoRefs.current).forEach((video) => { if (video &&
    !video.paused) video.pause(); })] *)
Definition pause_all_videos (s : State) : State :=
  s |> setVideoRefs (fmap (λ video,
         if negb (paused video) then video_pause video else video)).

Definition handleSearch_catch (err : Thrown) (s : State) : State :=
  s |> console_error (LogSearch err)
    |> setError (lit "An unexpected error occurred while searching")
    |> setResults []
    |> setCurrentPage 1
    |> setTotalPages 0
    |> setTotalResults 0.

Definition handleSearch_try (data : SearchResponse) (s : State) : State :=
  let s1 :=
    s |> pause_all_videos
      |> setActiveVideoId None
      |> setIsPlaying (λ _, ∅)
      |> setResults (sr_results data)
      |> setCurrentPage (pg_currentPage (sr_pagination data))
      |> setTotalPages (pg_totalPages (sr_pagination data))
      |> setTotalResults (pg_totalResults (sr_pagination data))
      |> setError [] in
  if (length (sr_results data) =? 0)%nat
  then s1 |> setError (lit "No results found. Try adjusting your search.")
  else s1.

(** The [try] block of [handleSearch] and of [handlePageChange] on a
    malformed body, up to the statement that throws: the videos are
    paused and the playback state is reset in both cases, and
    [setResults(data.results)] has run when it is [data.pagination] that
    is missing. *)
Definition try_malformed (body : Malformed) (s : State) : State :=
  let s1 :=
    s |> pause_all_videos
      |> setActiveVideoId None
      |> setIsPlaying (λ _, ∅) in
  match body with
  | BodyNull => s1
  | BodyWithoutPagination results => s1 |> setResults results
  end.

(** [handleSearch] from the point where [fetch] settles, [finally]
    included. *)
Definition handleSearch_settle (o : FetchOutcome) (s : State) : State :=
  match o with
  | FetchFailed => handleSearch_catch FetchRejected s
  | Responded false text _ => handleSearch_catch (ErrorOf text) s
  | Responded true _ None => handleSearch_catch JsonRejected s
  | Responded true _ (Some data) => handleSearch_try data s
  | RespondedMalformed _ body =>
      handleSearch_catch TypeErrorThrown (try_malformed body s)
  end |> setLoading false.

(** A whole call of [handleSearch], nothing running in between. *)
Definition handleSearch (page : Z) (o : FetchOutcome) (s : State)
    : State * option SearchPayload :=
  match handleSearch_begin page s with
  | (s1, Some payload) => (handleSearch_settle o s1, Some payload)
  | (s1, None) => (s1, None)
  end.

(** [handleSearch] as the Search button calls it.  [handleSearch_begin]
    is the call with a number for [page]; the [onKeyPress] of the search
    box calls [handleSearch()], which is page 1.  The button has
    [onClick={handleSearch}], so that [page] is the click event of
    React.  The guard and the setters before the request are the same;
    then [JSON.stringify(searchPayload)] throws a [TypeError], the event
    being a structure with cycles, before [fetch] is called: the [catch]
    and the [finally] blocks run in the same turn, and no request is
    sent. *)
Definition handleSearch_onClick (s : State) : State :=
  if negb (truthy (trim (searchTerm s)))
     && (length (base64Contents s) =? 0)%nat
  then s |> setError (lit "Please enter a search term or upload files")
  else
    s |> setLoading true |> setError [] |> setHasSearched true
      |> setLastSearchQueries (build_queries s)
      |> handleSearch_catch TypeErrorThrown
      |> setLoading false.

(** ** Pagination: [handlePageChange] *)

Definition handlePageChange_begin (newPage : Z) (s : State)
    : State * option SearchPayload :=
  if (newPage <? 1) || (newPage >? totalPages s) || loading s then (s, None)
  else
    (s |> setLoading true,
     Some {| queries := lastSearchQueries s; page := newPage;
             page_size := pageSize |}).

Definition handlePageChange_catch (err : Thrown) (s : State) : State :=
  s |> setError (lit "An error occurred while fetching more results")
    |> console_error (LogPagination err).

Definition handlePageChange_try (data : SearchResponse) (s : State) : State :=
  s |> pause_all_videos
    |> setActiveVideoId None
    |> setIsPlaying (λ _, ∅)
    |> setResults (sr_results data)
    |> setCurrentPage (pg_currentPage (sr_pagination data))
    |> setTotalPages (pg_totalPages (sr_pagination data))
    |> setTotalResults (pg_totalResults (sr_pagination data)).

Definition handlePageChange_settle (o : FetchOutcome) (s : State) : State :=
  match o with
  | FetchFailed => handlePageChange_catch FetchRejected s
  | Responded false text _ => handlePageChange_catch (ErrorOf text) s
  | Responded true _ None => handlePageChange_catch JsonRejected s
  | Responded true _ (Some data) => handlePageChange_try data s
  | RespondedMalformed _ body =>
      handlePageChange_catch TypeErrorThrown (try_malformed body s)
  end |> setLoading false.

Definition handlePageChange (newPage : Z) (o : FetchOutcome) (s : State)
    : State * option SearchPayload :=
  match handlePageChange_begin newPage s with
  | (s1, Some payload) => (handlePageChange_settle o s1, Some payload)
  | (s1, None) => (s1, None)
  end.

(** ** Playback: [handleVideoClick], [handlePlay], [handlePause] *)

(** How the promise of [video.play()] settles; a rejection is or is not
    an [AbortError]. *)
Inductive PlayOutcome :=
| PlayResolved
| PlayRejected (abortError : bool).

(** The two [await video.play()] of [handleVideoClick]: the one in the
    branch of the active video, and the one in the branch of another
    video. *)
Inductive PendingPlay := ResumeActive | SwitchActive.

(** [result.startTime || 0] *)
Definition startTime_or_0 (result : VideoSearchResult) : Qc :=
  match startTime result with
  | Some t => if decide (t = 0%Qc) then 0%Qc else t
  | None => 0%Qc
  end.

(** [handleVideoClick] up to its [await video.play()], if it reaches
    one. *)
Definition handleVideoClick_begin (resultId : jsstring)
    (result : VideoSearchResult) (s : State) : State * option PendingPlay :=
  match videoRefs s !! resultId with
  | None => (s, None)
  | Some video =>
      if decide (activeVideoId s = Some resultId) then
        if paused video then (s, Some ResumeActive)
        else
          (s |> setVideoRefs (alter video_pause resultId)
             |> setIsPlaying (<[resultId := false]>),
           None)
      else
        let s1 :=
          match activeVideoId s with
          | Some active =>
              if truthy active && bool_decide (is_Some (videoRefs s !! active))
              then s |> setVideoRefs (alter video_pause active)
                     |> setIsPlaying (<[active := false]>)
              else s
          | None => s
          end in
        (s1 |> setVideoRefs (alter (video_seek (startTime_or_0 result)) resultId),
         Some SwitchActive)
  end.

(** [handleVideoClick] from the point where [video.play()] settles. *)
Definition handleVideoClick_settle (resultId : jsstring) (p : PendingPlay)
    (o : PlayOutcome) (s : State) : State :=
  match o with
  | PlayResolved =>
      match p with
      | ResumeActive =>
          s |> setVideoRefs (alter video_play resultId)
            |> setIsPlaying (<[resultId := true]>)
      | SwitchActive =>
          s |> setVideoRefs (alter video_play resultId)
            |> setActiveVideoId (Some resultId)
            |> setIsPlaying (<[resultId := true]>)
      end
  | PlayRejected abortError =>
      (if abortError then s else s |> console_error LogPlayback)
      |> setIsPlaying (<[resultId := false]>)
  end.

(** A whole click, nothing running in between. *)
Definition handleVideoClick (resultId : jsstring) (result : VideoSearchResult)
    (o : PlayOutcome) (s : State) : State :=
  match handleVideoClick_begin resultId result s with
  | (s1, Some p) => handleVideoClick_settle resultId p o s1
  | (s1, None) => s1
  end.

Definition handlePlay (resultId : jsstring) (s : State) : State :=
  s |> setIsPlaying (<[resultId := true]>).

Definition handlePause (resultId : jsstring) (s : State) : State :=
  s |> setIsPlaying (<[resultId := false]>).

(** The [ref] callback of a [<video>]: [if (el) videoRefs.current[id] =
    el]. *)
Definition videoRef (resultId : jsstring) (el : HTMLVideoElement)
    (s : State) : State :=
  s |> setVideoRefs (<[resultId := el]>).

(** ** The component as a transition system

    One event is one run of a handler on the UI thread: a user action,
    or the settling of a promise that a handler awaits.  [OnSearch] is a
    call of [handleSearch] with a number, [OnSearchClick] the click on
    the Search button.  The [play] and
    [pause] events of a [<video>] come with the change of its [paused]
    attribute that they report. *)

Inductive Event :=
| OnChange (value : jsstring)
| OnToggleSection (resultId : jsstring) (section : Section_)
| OnFileSelect (files : list File)
| FileSelectSettled (validFiles : list File) (reader : File → option jsstring)
| OnRemoveImage (index : Z)
| OnRemoveAll
| OnSearch (page : Z)
| SearchSettled (o : FetchOutcome)
| OnPageChange (newPage : Z)
| PageChangeSettled (o : FetchOutcome)
| OnVideoClick (resultId : jsstring) (result : VideoSearchResult)
    (o : PlayOutcome)
| OnPlay (resultId : jsstring)
| OnPause (resultId : jsstring)
| OnVideoRef (resultId : jsstring) (el : HTMLVideoElement)
| OnSearchClick.

(** The state after the event, and the request it sends, if any. *)
Definition step (e : Event) (s : State) : State * option SearchPayload :=
  match e with
  | OnChange value => (setSearchTerm value s, None)
  | OnToggleSection resultId section => (toggleSection resultId section s, None)
  | OnFileSelect files => ((handleFileSelect_begin files s).1, None)
  | FileSelectSettled validFiles reader =>
      (handleFileSelect_settle validFiles reader s, None)
  | OnRemoveImage index => (removeImage index s, None)
  | OnRemoveAll => (removeAll s, None)
  | OnSearch page => handleSearch_begin page s
  | SearchSettled o => (handleSearch_settle o s, None)
  | OnPageChange newPage => handlePageChange_begin newPage s
  | PageChangeSettled o => (handlePageChange_settle o s, None)
  | OnVideoClick resultId result o => (handleVideoClick resultId result o s, None)
  | OnPlay resultId =>
      (s |> setVideoRefs (alter video_play resultId) |> handlePlay resultId, None)
  | OnPause resultId =>
      (s |> setVideoRefs (alter video_pause resultId) |> handlePause resultId,
       None)
  | OnVideoRef resultId el => (videoRef resultId el s, None)
  | OnSearchClick => (handleSearch_onClick s, None)
  end.

(** The state after a sequence of events. *)
Definition exec (es : list Event) (s : State) : State :=
  foldl (λ s e, (step e s).1) s es.

(** The requests that a sequence of events sends, in order. *)
Fixpoint sent (es : list Event) (s : State) : list SearchPayload :=
  match es with
  | [] => []
  | e :: es' =>
      match (step e s).2 with
      | Some payload => payload :: sent es' (step e s).1
      | None => sent es' (step e s).1
      end
  end.

Definition is_search (e : Event) : bool :=
  match e with OnSearch _ | OnSearchClick => true | _ => false end.

(** ** Reading a file: [fileToBase64] *)

Definition comma : N := 0x2C%N.

(** [s.split(",")]: the pieces of [s] between its commas. *)
Fixpoint split_comma (s : jsstring) : list jsstring :=
  match s with
  | [] => [[]]
  | c :: s' =>
      if (c =? comma)%N then [] :: split_comma s'
      else
        match split_comma s' with
        | piece :: pieces => (c :: piece) :: pieces
        | [] => [[c]]
        end
  end.

(** What the [FileReader] does after [readAsDataURL]: it fires [onload]
    with its [result], or [onerror]. *)
Inductive ReadOutcome :=
| ReadLoaded (result : jsstring)
| ReadFailed.

(** A settled promise. *)
Inductive Settled (A : Type) :=
| Resolved (value : A)
| Rejected.
Arguments Resolved {A} value.
Arguments Rejected {A}.

(** [fileToBase64]: the promise resolves with
    [base64String.split(",")[1]], which is [undefined] ([None]) when
    there is no such piece, and rejects on [onerror]. *)
Definition fileToBase64 (r : ReadOutcome) : Settled (option jsstring) :=
  match r with
  | ReadLoaded base64String => Resolved (split_comma base64String !! 1%nat)
  | ReadFailed => Rejected
  end.

(** The [src] of the preview of an uploaded image:
    [`data:${file.type};base64,${base64}`]. *)
Definition preview_src (file : File) (base64 : jsstring) : jsstring :=
  lit "data:" ++ file_type file ++ lit ";base64," ++ base64.

(** ** Unmounting: the cleanup of [useEffect] *)

(** [Object.values(videoRefs.current).forEach(...)], the same loop as in
    the handlers. *)
Definition unmount_cleanup (s : State) : State := pause_all_videos s.

(** ** What is rendered *)

(** The text of the search button: "Search", or "Search All (n
    queries)". *)
Inductive ButtonLabel :=
| LabelSearch
| LabelSearchAll (n : nat).

Definition search_button_label (s : State) : ButtonLabel :=
  if truthy (searchTerm s) && (0 <? length (base64Contents s))%nat
  then LabelSearchAll
         (length (base64Contents s) + (if truthy (searchTerm s) then 1 else 0))
  else LabelSearch.

(** [{error && ...}]: the red box. *)
Definition error_banner (s : State) : bool := truthy (error s).

(** [{!loading && results.length === 0 && !error && hasSearched && ...}]:
    the yellow "No Results" box. *)
Definition no_results_banner (s : State) : bool :=
  negb (loading s) && (length (results s) =? 0)%nat
  && negb (truthy (error s)) && hasSearched s.

(** ** Predicates of the properties, sample states and sample events *)

(** A search for "cat" that is answered by a 500 whose body is "boom". *)
Definition cat_search_boom : State :=
  (handleSearch 1 (Responded false (lit "boom") None)
     (setSearchTerm (lit "cat") initial)).1.

Definition base64_query (c : Base64Content) : SearchQuery :=
  {| q_type := QBase64; q_value := bc_base64 c;
     q_embedding_model := lit "multimodal" |}.

(** The search box holds " cat", with a leading space. *)
Definition padded_input : State := setSearchTerm (lit " cat") initial.

(** Three pages of results, nothing loading. *)
Definition three_pages : State := setTotalPages 3 initial.

(** The message of the validation error. *)
Definition validation_message : jsstring :=
  lit "Please enter a search term or upload files".

(** The search box holds three spaces. *)
Definition blank_input : State := setSearchTerm (lit "   ") initial.

Definition sample_result (resultId : string) : VideoSearchResult :=
  {| id := lit resultId; url := lit "/media/clip.mp4"; thumbnailUrl := None;
     title := None; duration := None; startTime := None; endTime := None;
     score := 1%Qc; matchType := None; description := None;
     transcript := None; createdAt := lit "2024-01-01" |}.

(** A page of one result out of three pages and twenty-five results. *)
Definition sample_page (n : Z) : FetchOutcome :=
  Responded true []
    (Some {| sr_results := [sample_result "r1"];
             sr_pagination := {| pg_currentPage := n; pg_totalPages := 3;
                                 pg_totalResults := 25; pg_hasMore := true |} |}).

Definition sunset_query : list SearchQuery :=
  [{| q_type := QText; q_value := lit "sunset beach";
      q_embedding_model := lit "multimodal" |}].

Definition pagination_message : jsstring :=
  lit "An error occurred while fetching more results".

(** A search for "cat" finds three pages; the change to page 2 is
    answered by a 500. *)
Definition failed_page_change : State :=
  exec [OnChange (lit "cat"); OnSearch 1; SearchSettled (sample_page 1);
        OnPageChange 2; PageChangeSettled (Responded false (lit "oops") None)]
       initial.

Definition sample_png : File :=
  {| file_handle := 0; file_name := lit "a.png"; file_type := lit "image/png" |}.

Definition aligned (s : State) : Prop :=
  bc_file <$> base64Contents s = selectedFiles s.

(** The names of the members of [Object.prototype]: those of the
    language and those of its annex for browsers.  Every object that an
    object literal builds inherits them. *)
Definition object_prototype_members : list jsstring :=
  [lit "constructor"; lit "hasOwnProperty"; lit "isPrototypeOf";
   lit "propertyIsEnumerable"; lit "toLocaleString"; lit "toString";
   lit "valueOf"; lit "__proto__"; lit "__defineGetter__";
   lit "__defineSetter__"; lit "__lookupGetter__"; lit "__lookupSetter__"].

(** [isPlaying[resultId]], read as a condition.  [isPlaying] is a plain
    object: the entry of [resultId] when it has one; when it has none,
    what it inherits under that name from [Object.prototype], a function
    or an object, which is true; and [undefined], which is false, for
    every other name. *)
Definition playing (s : State) (resultId : jsstring) : bool :=
  match isPlaying s !! resultId with
  | Some flag => flag
  | None => bool_decide (resultId ∈ object_prototype_members)
  end.

(** Only the active result may be marked playing. *)
Definition only_active_playing (s : State) : Prop :=
  ∀ active, activeVideoId s = Some active →
    ∀ i, i ≠ active → playing s i = false.

Definition fresh_video : HTMLVideoElement :=
  {| paused := true; currentTime := 0%Qc |}.

(** Two results are shown and the first has been clicked: it is the
    active one, and it plays. *)
Definition first_playing : State :=
  exec [OnVideoRef (lit "A") fresh_video; OnVideoRef (lit "B") fresh_video;
        OnVideoClick (lit "A") (sample_result "A") PlayResolved]
       initial.

(** A result whose id is the empty string is clicked and plays, then
    another result is clicked and plays. *)
Definition empty_id_then_other : State :=
  exec [OnVideoRef [] fresh_video; OnVideoRef (lit "B") fresh_video;
        OnVideoClick [] (sample_result String.EmptyString) PlayResolved;
        OnVideoClick (lit "B") (sample_result "B") PlayResolved]
       initial.

(** The events under which the invariant does hold: a click is on a
    result whose id is not the empty string and runs to the settling of
    its [video.play()] before the next event, and a [play] event is one
    of the active video.  The ids of the results that are clicked and
    whose video elements are mounted do not name a member of
    [Object.prototype]: for such ids [videoRefs.current[id]] is the
    element mounted under [id] or [undefined], as the lookup in the map
    has it.  All other events are free. *)
Definition allowed (e : Event) (s : State) : Prop :=
  match e with
  | OnVideoClick resultId _ _ =>
      resultId ≠ [] ∧ resultId ∉ object_prototype_members
  | OnVideoRef resultId _ => resultId ∉ object_prototype_members
  | OnPlay resultId => activeVideoId s = Some resultId
  | _ => True
  end.

Fixpoint admissible (es : list Event) (s : State) : Prop :=
  match es with
  | [] => True
  | e :: es' => allowed e s ∧ admissible es' (step e s).1
  end.

(** What the handlers maintain: the active id is not empty and has a
    video element, and whoever has the entry [true] in [isPlaying] is
    the active one. *)
Definition playback_inv (s : State) : Prop :=
  (∀ a, activeVideoId s = Some a → a ≠ [] ∧ is_Some (videoRefs s !! a))
  ∧ (∀ i, isPlaying s !! i = Some true → activeVideoId s = Some i).

(** Both videos are mounted, the first is clicked and plays and fires
    its [play], the second is clicked and plays, and the first fires its
    [pause]. *)
Definition two_clicks : list Event :=
  [OnVideoRef (lit "A") fresh_video; OnVideoRef (lit "B") fresh_video;
   OnVideoClick (lit "A") (sample_result "A") PlayResolved;
   OnPlay (lit "A");
   OnVideoClick (lit "B") (sample_result "B") PlayResolved;
   OnPause (lit "A")].

(** The two messages of [handleFileSelect]. *)
Definition skipped_message : jsstring :=
  lit "Some files were skipped. Please upload only JPG or PNG files".

Definition failed_message : jsstring :=
  lit "Failed to process one or more files".

Definition sample_pdf : File :=
  {| file_handle := 1; file_name := lit "b.pdf";
     file_type := lit "application/pdf" |}.

Definition sample_jpeg : File :=
  {| file_handle := 2; file_name := lit "c.jpg"; file_type := lit "image/jpeg" |}.

(** A reader that reads every file as the same payload, and one that
    fails on every file. *)
Definition reads_all (file : File) : option jsstring := Some (lit "iVBORw0KGgo=").

Definition reads_none (file : File) : option jsstring := None.

Definition search_failed_message : jsstring :=
  lit "An unexpected error occurred while searching".

Definition no_results_message : jsstring :=
  lit "No results found. Try adjusting your search.".

(** An outcome of [fetch] that reaches the end of the [try] block: an
    ok response whose body parses. *)
Definition is_success (o : FetchOutcome) : bool :=
  match o with
  | Responded true _ (Some _) => true
  | _ => false
  end.

(** An outcome on which the [try] block gets to use the body, and so to
    reset the playback, before it ends or throws. *)
Definition body_used (o : FetchOutcome) : bool :=
  match o with
  | Responded true _ (Some _) | RespondedMalformed _ _ => true
  | _ => false
  end.

(** What a failed [try] block throws. *)
Definition thrown_by (o : FetchOutcome) : Thrown :=
  match o with
  | FetchFailed => FetchRejected
  | Responded false text _ => ErrorOf text
  | Responded true _ _ => JsonRejected
  | RespondedMalformed _ _ => TypeErrorThrown
  end.

(** An ok response with no result at all. *)
Definition empty_page : SearchResponse :=
  {| sr_results := [];
     sr_pagination := {| pg_currentPage := 1; pg_totalPages := 0;
                         pg_totalResults := 0; pg_hasMore := false |} |}.

(** Two images are uploaded and the search box holds one space. *)
Definition two_images_blank_text : State :=
  setSearchTerm (lit " ")
    (handleFileSelect [sample_png; sample_jpeg] reads_all initial).



#[global] Instance File_eq_dec : EqDecision File.
Proof. solve_decision. Defined.

(** Closes a decidable goal about concrete data by evaluation. *)
Ltac by_compute :=
  match goal with
  | |- ?P => apply (bool_decide_unpack P); vm_compute; exact I
  end.

(** * Properties *)

(** ** Strings *)

Lemma truthy_true (s : jsstring) : truthy s = true ↔ s ≠ [].
Proof. destruct s; simpl; split; congruence. Qed.

Lemma truthy_false (s : jsstring) : truthy s = false ↔ s = [].
Proof. destruct s; simpl; split; congruence. Qed.

(** ** Failed searches *)

(** C1, as stated, fails: after a non-ok response whose body is "boom"
    the error that the component holds is not "boom".  The body has
    gone to the console only. *)
Lemma search_error_is_not_response_body :
  error cat_search_boom ≠ lit "boom"
  ∧ console cat_search_boom = [LogSearch (ErrorOf (lit "boom"))].
Proof. split; [ vm_compute; discriminate | reflexivity ]. Qed.

(** C1, amended: when a search is answered by a non-ok response, in
    whatever state the answer arrives, the [Error] built from the text
    of the body is caught and written to the console, the error slot
    holds the fixed message "An unexpected error occurred while
    searching", the results are cleared, the pagination is back to page
    1 of 0 with 0 results, and loading is over. *)
Theorem handleSearch_non_ok_response (s : State) (text : jsstring)
    (json : option SearchResponse) :
  let s' := handleSearch_settle (Responded false text json) s in
  console s' = console s ++ [LogSearch (ErrorOf text)]
  ∧ error s' = lit "An unexpected error occurred while searching"
  ∧ results s' = []
  ∧ (currentPage s', totalPages s', totalResults s') = (1, 0, 0)
  ∧ loading s' = false.
Proof. repeat split. Qed.

(** ** The query builder *)

(** C2, as stated, fails: the trimmed text of [padded_input] is "cat"
    and is not empty, yet the text query carries " cat", the text as it
    was typed. *)
Lemma text_query_value_not_trimmed :
  trim (searchTerm padded_input) = lit "cat"
  ∧ q_value <$> head (build_queries padded_input)
    ≠ Some (trim (searchTerm padded_input)).
Proof. split; [ reflexivity | vm_compute; discriminate ]. Qed.

(** C2, amended: when the trimmed text is not empty, the queries are a
    text query whose value is the text as typed, untrimmed, and then one
    base64 query per uploaded image in the order of [base64Contents],
    all with the embedding model "multimodal"; the request of the search
    carries exactly this list. *)
Theorem build_queries_text_first (s : State) (page : Z) :
  trim (searchTerm s) ≠ [] →
  build_queries s
  = {| q_type := QText; q_value := searchTerm s;
       q_embedding_model := lit "multimodal" |}
    :: (base64_query <$> base64Contents s)
  ∧ queries <$> (handleSearch_begin page s).2 = Some (build_queries s).
Proof.
  intros Hne. apply truthy_true in Hne.
  unfold handleSearch_begin, build_queries. rewrite Hne. simpl.
  split; reflexivity.
Qed.

Lemma build_queries_text_first_witness :
  build_queries padded_input
  = {| q_type := QText; q_value := lit " cat";
       q_embedding_model := lit "multimodal" |} :: []
  ∧ queries <$> (handleSearch_begin 1 padded_input).2
    = Some (build_queries padded_input).
Proof.
  apply (build_queries_text_first padded_input 1). vm_compute. discriminate.
Defined.

(** ** Playback is reset by new results *)

Lemma pause_all_videos_paused (s : State) (i : jsstring) (v : HTMLVideoElement) :
  videoRefs (pause_all_videos s) !! i = Some v → paused v = true.
Proof.
  simpl. rewrite lookup_fmap. destruct (videoRefs s !! i) as [w|]; simpl; [|done].
  intros [= <-]. destruct (paused w) eqn:Hw; simpl; done.
Qed.

(** C3: after a search or a page change whose response is ok and whose
    body parses, in whatever state the response arrives, there is no
    active video, the playing map is empty, so that no id is marked
    playing, and every video element is paused. *)
Theorem playback_reset_on_success (s : State) (text : jsstring)
    (data : SearchResponse) :
  let after_search := handleSearch_settle (Responded true text (Some data)) s in
  let after_page := handlePageChange_settle (Responded true text (Some data)) s in
  (activeVideoId after_search = None
   ∧ isPlaying after_search = ∅
   ∧ (∀ i, isPlaying after_search !! i ≠ Some true)
   ∧ (∀ i v, videoRefs after_search !! i = Some v → paused v = true)
   ∧ results after_search = sr_results data)
  ∧ (activeVideoId after_page = None
     ∧ isPlaying after_page = ∅
     ∧ (∀ i, isPlaying after_page !! i ≠ Some true)
     ∧ (∀ i v, videoRefs after_page !! i = Some v → paused v = true)
     ∧ results after_page = sr_results data).
Proof.
  simpl. unfold handleSearch_try.
  split.
  - destruct (length (sr_results data) =? 0)%nat; simpl;
      (repeat split; [ intros i; by rewrite lookup_empty
                     | intros i v; apply (pause_all_videos_paused s) ]).
  - repeat split; [ intros i; by rewrite lookup_empty
                  | intros i v; apply (pause_all_videos_paused s) ].
Qed.

(** ** Guards of pagination and search *)

(** C5: [handlePageChange] with a page below 1, a page above
    [totalPages], or while loading, changes nothing and sends
    nothing. *)
Theorem handlePageChange_noop (s : State) (newPage : Z) (o : FetchOutcome) :
  newPage < 1 ∨ newPage > totalPages s ∨ loading s = true →
  handlePageChange_begin newPage s = (s, None)
  ∧ handlePageChange newPage o s = (s, None)
  ∧ step (OnPageChange newPage) s = (s, None).
Proof.
  intros H.
  assert (Hb : handlePageChange_begin newPage s = (s, None)).
  { unfold handlePageChange_begin.
    destruct (newPage <? 1) eqn:H1; [done|].
    destruct (newPage >? totalPages s) eqn:H2; [done|].
    destruct (loading s) eqn:H3; [done|].
    exfalso. apply Z.ltb_ge in H1. rewrite Z.gtb_ltb in H2.
    apply Z.ltb_ge in H2. destruct H as [H | [H | H]]; [lia | lia | done]. }
  unfold handlePageChange. simpl. by rewrite Hb.
Qed.

Lemma handlePageChange_noop_witness :
  handlePageChange_begin 4 three_pages = (three_pages, None)
  ∧ handlePageChange 4 FetchFailed three_pages = (three_pages, None)
  ∧ step (OnPageChange 4) three_pages = (three_pages, None).
Proof.
  apply (handlePageChange_noop three_pages 4 FetchFailed).
  right; left. simpl. lia.
Defined.

Lemma validation_message_words :
  validation_message = lit "Please " ++ lit "enter a search term or upload files".
Proof. reflexivity. Qed.

(** [setError] writes the error slot and nothing else. *)
Lemma setError_frame (v : jsstring) (s : State) :
  error (setError v s) = v
  ∧ searchTerm (setError v s) = searchTerm s
  ∧ hasSearched (setError v s) = hasSearched s
  ∧ results (setError v s) = results s
  ∧ loading (setError v s) = loading s
  ∧ activeVideoId (setError v s) = activeVideoId s
  ∧ isPlaying (setError v s) = isPlaying s
  ∧ videoRefs (setError v s) = videoRefs s
  ∧ expandedSections (setError v s) = expandedSections s
  ∧ selectedFiles (setError v s) = selectedFiles s
  ∧ base64Contents (setError v s) = base64Contents s
  ∧ (currentPage (setError v s), totalPages (setError v s),
     totalResults (setError v s))
    = (currentPage s, totalPages s, totalResults s)
  ∧ lastSearchQueries (setError v s) = lastSearchQueries s
  ∧ console (setError v s) = console s.
Proof. repeat split. Qed.

(** C6: when the trimmed text is empty and no image is uploaded,
    [handleSearch] sends no request and leaves the state as it was but
    for the error, which becomes the validation message. *)
Theorem handleSearch_empty_input (s : State) (page : Z) (o : FetchOutcome) :
  trim (searchTerm s) = [] →
  base64Contents s = [] →
  handleSearch_begin page s = (setError validation_message s, None)
  ∧ handleSearch page o s = (setError validation_message s, None)
  ∧ sent [OnSearch page] s = [].
Proof.
  intros Ht Hb.
  assert (He : handleSearch_begin page s = (setError validation_message s, None)).
  { unfold handleSearch_begin. by rewrite Ht, Hb. }
  unfold handleSearch. simpl. by rewrite He.
Qed.

Lemma handleSearch_empty_input_witness :
  handleSearch_begin 1 blank_input = (setError validation_message blank_input, None)
  ∧ handleSearch 1 FetchFailed blank_input
    = (setError validation_message blank_input, None)
  ∧ sent [OnSearch 1] blank_input = [].
Proof.
  apply (handleSearch_empty_input blank_input 1 FetchFailed); reflexivity.
Defined.

(** ** Disclosure state *)

Lemma expanded_toggleSection (resultId : jsstring) (section : Section_)
    (s : State) :
  expanded (expandedSections (toggleSection resultId section s)) resultId section
  = negb (expanded (expandedSections s) resultId section).
Proof.
  unfold expanded. simpl. rewrite lookup_insert_eq. simpl.
  destruct (expandedSections s !! resultId) as [e|]; simpl;
    by destruct section.
Qed.

(** C9: toggling a section of a result twice gives back the flag it
    had, and one toggle of a result that has no entry gives true. *)
Theorem toggleSection_involutive (resultId : jsstring) (section : Section_)
    (s : State) :
  expanded (expandedSections
              (toggleSection resultId section
                 (toggleSection resultId section s))) resultId section
  = expanded (expandedSections s) resultId section
  ∧ (expandedSections s !! resultId = None →
     expanded (expandedSections (toggleSection resultId section s))
       resultId section = true).
Proof.
  rewrite !expanded_toggleSection, negb_involutive. split; [done|].
  intros Hn. unfold expanded. by rewrite Hn.
Qed.

Lemma toggleSection_involutive_witness :
  expanded (expandedSections
              (toggleSection (lit "r1") description_
                 (toggleSection (lit "r1") description_ initial)))
    (lit "r1") description_
  = expanded (expandedSections initial) (lit "r1") description_
  ∧ expanded (expandedSections (toggleSection (lit "r1") description_ initial))
      (lit "r1") description_ = true.
Proof.
  destruct (toggleSection_involutive (lit "r1") description_ initial) as [H1 H2].
  split; [ exact H1 | apply H2; reflexivity ].
Defined.

(** ** Pagination replays the captured queries *)

Lemma step_lastSearchQueries (e : Event) (s : State) :
  is_search e = false →
  lastSearchQueries (step e s).1 = lastSearchQueries s.
Proof.
  destruct e; intros He; try discriminate He; simpl; try reflexivity.
  - unfold handleFileSelect_begin. by repeat case_match.
  - unfold handleFileSelect_settle. by case_match.
  - unfold handleSearch_settle, handleSearch_try, try_malformed.
    by repeat case_match.
  - unfold handlePageChange_begin. by case_match.
  - unfold handlePageChange_settle, try_malformed. by repeat case_match.
  - unfold handleVideoClick, handleVideoClick_begin, handleVideoClick_settle.
    by repeat (case_match; simplify_eq/=).
Qed.

Lemma exec_cons (e : Event) (es : list Event) (s : State) :
  exec (e :: es) s = exec es (step e s).1.
Proof. reflexivity. Qed.

Lemma exec_app (es1 es2 : list Event) (s : State) :
  exec (es1 ++ es2) s = exec es2 (exec es1 s).
Proof. apply foldl_app. Qed.

Lemma exec_lastSearchQueries (es : list Event) (s : State) :
  Forall (λ e, is_search e = false) es →
  lastSearchQueries (exec es s) = lastSearchQueries s.
Proof.
  intros H. revert s. induction H as [|e es He _ IH]; intros s; [done|].
  rewrite exec_cons, IH. by apply step_lastSearchQueries.
Qed.

Lemma handlePageChange_begin_queries (newPage : Z) (s : State)
    (r : SearchPayload) :
  (step (OnPageChange newPage) s).2 = Some r →
  queries r = lastSearchQueries s ∧ page r = newPage.
Proof.
  simpl. unfold handlePageChange_begin. case_match; [done|].
  by intros [= <-].
Qed.

(** C4: a search of page 1 that sends a request [r1], then a change to
    page 2 that sends [r2], then a change to page 1 that sends [r3],
    with any events but a new search in between (edits of the search
    box, uploads, removals, responses, clicks): the three requests carry
    the same queries, those built from the inputs at the time of the
    search. *)
Theorem pagination_reuses_captured_queries (s0 : State) (es1 es2 : list Event)
    (r1 r2 r3 : SearchPayload) :
  Forall (λ e, is_search e = false) es1 →
  Forall (λ e, is_search e = false) es2 →
  (step (OnSearch 1) s0).2 = Some r1 →
  (step (OnPageChange 2) (exec (OnSearch 1 :: es1) s0)).2 = Some r2 →
  (step (OnPageChange 1)
        (exec (OnSearch 1 :: es1 ++ OnPageChange 2 :: es2) s0)).2 = Some r3 →
  queries r1 = build_queries s0
  ∧ queries r2 = queries r1
  ∧ queries r3 = queries r1
  ∧ (page r1, page r2, page r3) = (1, 2, 1).
Proof.
  intros H1 H2 Hr1 Hr2 Hr3.
  apply handlePageChange_begin_queries in Hr2 as [Hq2 Hp2].
  apply handlePageChange_begin_queries in Hr3 as [Hq3 Hp3].
  rewrite exec_cons in Hq2.
  rewrite app_comm_cons, exec_app, !exec_cons in Hq3.
  rewrite exec_lastSearchQueries in Hq2 by done.
  rewrite exec_lastSearchQueries in Hq3 by done.
  rewrite step_lastSearchQueries, exec_lastSearchQueries in Hq3 by done.
  revert Hr1 Hq2 Hq3. simpl. unfold handleSearch_begin.
  case_match; [done|]. simpl. intros [= <-] Hq2 Hq3. simpl.
  rewrite Hq2, Hq3, Hp2, Hp3. done.
Qed.

Lemma pagination_reuses_captured_queries_witness :
  queries {| queries := sunset_query; page := 1; page_size := 10 |}
  = build_queries (setSearchTerm (lit "sunset beach") initial)
  ∧ queries {| queries := sunset_query; page := 2; page_size := 10 |}
    = queries {| queries := sunset_query; page := 1; page_size := 10 |}
  ∧ queries {| queries := sunset_query; page := 1; page_size := 10 |}
    = queries {| queries := sunset_query; page := 1; page_size := 10 |}
  ∧ (1, 2, 1) = (1, 2, 1).
Proof.
  apply (pagination_reuses_captured_queries
           (setSearchTerm (lit "sunset beach") initial)
           [SearchSettled (sample_page 1); OnChange (lit "mountains")]
           [PageChangeSettled (sample_page 2); OnChange []]
           {| queries := sunset_query; page := 1; page_size := 10 |}
           {| queries := sunset_query; page := 2; page_size := 10 |}
           {| queries := sunset_query; page := 1; page_size := 10 |}).
  - repeat constructor.
  - repeat constructor.
  - reflexivity.
  - reflexivity.
  - reflexivity.
Defined.

(** ** The error slot across actions *)

(** A new search that passes validation clears the error first. *)
Lemma handleSearch_begin_clears_error (page : Z) (s : State)
    (r : SearchPayload) :
  (handleSearch_begin page s).2 = Some r →
  error (handleSearch_begin page s).1 = [].
Proof. unfold handleSearch_begin. by case_match. Qed.

(** A page change never writes the error slot before its request
    settles, and an ok response does not write it either. *)
Lemma handlePageChange_keeps_error (newPage : Z) (s : State) (text : jsstring)
    (data : SearchResponse) :
  error (handlePageChange_begin newPage s).1 = error s
  ∧ error (handlePageChange_settle (Responded true text (Some data)) s)
    = error s.
Proof. unfold handlePageChange_begin. split; [by case_match | done]. Qed.

(** A selection in which every file is accepted and read leaves the
    error slot as it was. *)
Lemma handleFileSelect_keeps_error (files : list File)
    (reader : File → option jsstring) (s : State) :
  Forall (λ file, file_type file ∈ validImageTypes) files →
  is_Some (read_all reader files) →
  error (handleFileSelect files reader s) = error s.
Proof.
  intros Hv [new Hnew]. unfold handleFileSelect, handleFileSelect_begin.
  destruct (length files =? 0)%nat; [done|].
  assert (Hf : filter (λ file, file_type file ∈ validImageTypes) files = files).
  { clear -Hv. induction Hv as [|f fs Hf _ IH]; [done|].
    rewrite filter_cons, decide_True by done. by rewrite IH. }
  rewrite Hf, Nat.eqb_refl. simpl.
  unfold handleFileSelect_settle. by rewrite Hnew.
Qed.

(** C7, at the failing input: in [failed_page_change] the error slot
    holds the pagination message.  A further change to page 3 sends its
    request and still shows that message, before and after its ok
    response; so does the upload of a PNG that is read without failure.
    Only a new search clears it. *)
Theorem error_survives_page_change_and_upload :
  error failed_page_change = pagination_message
  ∧ is_Some (step (OnPageChange 3) failed_page_change).2
  ∧ error (exec [OnPageChange 3] failed_page_change) = pagination_message
  ∧ error (exec [OnPageChange 3; PageChangeSettled (sample_page 3)]
             failed_page_change) = pagination_message
  ∧ error (exec [OnFileSelect [sample_png]] failed_page_change)
    = pagination_message
  ∧ error (exec [OnFileSelect [sample_png];
                 FileSelectSettled [sample_png] (λ _, Some (lit "iVBORw0KGgo="))]
             failed_page_change) = pagination_message
  ∧ error (exec [OnSearch 1] failed_page_change) = [].
Proof. repeat split; try reflexivity. by eexists. Qed.

(** ** Uploads stay aligned *)

Lemma filter_index_ne_fmap {A B} (f : A → B) (index : Z) (i : nat) (l : list A) :
  f <$> filter_index_ne index i l = filter_index_ne index i (f <$> l).
Proof.
  revert i. induction l as [|x l IH]; intros i; [done|].
  simpl. case_match; simpl; by rewrite IH.
Qed.

Lemma read_all_files (reader : File → option jsstring) (validFiles : list File)
    (new : list Base64Content) :
  read_all reader validFiles = Some new → bc_file <$> new = validFiles.
Proof.
  unfold read_all. revert new.
  induction validFiles as [|file fs IH]; intros new; simpl.
  - by intros [= <-].
  - destruct (reader file) as [b|]; simpl; [|done].
    destruct (mapM _ fs) as [k|]; simpl; [|done].
    intros [= <-]. rewrite fmap_cons. simpl. by rewrite (IH k).
Qed.

Lemma step_aligned (e : Event) (s : State) :
  aligned s → aligned (step e s).1.
Proof.
  unfold aligned. intros Ha. destruct e; simpl; try done.
  - unfold handleFileSelect_begin. by repeat case_match.
  - unfold handleFileSelect_settle.
    destruct (read_all reader validFiles) as [new|] eqn:Hr; simpl; [|done].
    by rewrite fmap_app, Ha, (read_all_files _ _ _ Hr).
  - by rewrite filter_index_ne_fmap, Ha.
  - unfold handleSearch_begin. by case_match.
  - unfold handleSearch_settle, handleSearch_try, try_malformed.
    by repeat case_match.
  - unfold handlePageChange_begin. by case_match.
  - unfold handlePageChange_settle, try_malformed. by repeat case_match.
  - unfold handleVideoClick, handleVideoClick_begin, handleVideoClick_settle.
    by repeat (case_match; simplify_eq/=).
  - unfold handleSearch_onClick. by case_match.
Qed.

Lemma exec_aligned (es : list Event) (s : State) :
  aligned s → aligned (exec es s).
Proof.
  revert s. induction es as [|e es IH]; intros s Ha; [done|].
  rewrite exec_cons. by apply IH, step_aligned.
Qed.

(** C10: in every state that the component reaches, whatever the events
    (selections that are read or fail, removals by index, "Remove All",
    and all the others, in any order), the files of [base64Contents] are
    [selectedFiles]: the two lists have the same length, and the file of
    the entry at index [i] of the first is the file at index [i] of the
    second. *)
Theorem uploads_aligned (es : list Event) :
  bc_file <$> base64Contents (exec es initial) = selectedFiles (exec es initial)
  ∧ length (base64Contents (exec es initial))
    = length (selectedFiles (exec es initial))
  ∧ ∀ (i : nat) (c : Base64Content),
      base64Contents (exec es initial) !! i = Some c →
      selectedFiles (exec es initial) !! i = Some (bc_file c).
Proof.
  assert (Ha : aligned (exec es initial)) by by apply exec_aligned.
  unfold aligned in Ha. split; [done|]. rewrite <- Ha. split.
  - by rewrite length_fmap.
  - intros i c Hc. by rewrite list_lookup_fmap, Hc.
Qed.

(** The three operations on uploads, one by one. *)
Lemma handleFileSelect_appends (files : list File)
    (reader : File → option jsstring) (s : State)
    (new : list Base64Content) :
  files ≠ [] →
  read_all reader (filter (λ file, file_type file ∈ validImageTypes) files)
  = Some new →
  selectedFiles (handleFileSelect files reader s)
  = selectedFiles s ++ filter (λ file, file_type file ∈ validImageTypes) files
  ∧ base64Contents (handleFileSelect files reader s) = base64Contents s ++ new.
Proof.
  intros Hne Hr. unfold handleFileSelect, handleFileSelect_begin.
  destruct (length files =? 0)%nat eqn:Hl.
  { apply Nat.eqb_eq in Hl. by destruct files. }
  unfold handleFileSelect_settle. rewrite Hr. by case_match.
Qed.

Lemma handleFileSelect_failed_batch (files : list File)
    (reader : File → option jsstring) (s : State) :
  read_all reader (filter (λ file, file_type file ∈ validImageTypes) files)
  = None →
  selectedFiles (handleFileSelect files reader s) = selectedFiles s
  ∧ base64Contents (handleFileSelect files reader s) = base64Contents s.
Proof.
  intros Hr. unfold handleFileSelect, handleFileSelect_begin.
  destruct (length files =? 0)%nat; [done|].
  unfold handleFileSelect_settle. rewrite Hr. by case_match.
Qed.

(** ** Playback: who is marked playing *)

(** C8, as stated, fails.  In [first_playing] a [play] event of the
    second video marks it playing while the first stays the active one.
    The same happens within a click on the second video: [video.play()]
    makes the element fire [play], and [handlePlay] runs while
    [handleVideoClick] still awaits the promise and has not yet called
    [setActiveVideoId].  And with clicks alone: an active id that is the
    empty string is falsy in [activeVideoId && ...], so a click on
    another result neither pauses it nor unmarks it.  And in
    [first_playing] itself: the id "constructor" has no entry in
    [isPlaying], and [isPlaying["constructor"]] is the function that
    the object inherits, which reads as playing. *)
Lemma play_event_marks_inactive_result :
  ¬ only_active_playing (exec [OnPlay (lit "B")] first_playing)
  ∧ ¬ only_active_playing
        (handlePlay (lit "B")
           (handleVideoClick_begin (lit "B") (sample_result "B")
              first_playing).1)
  ∧ ¬ only_active_playing empty_id_then_other
  ∧ ¬ only_active_playing first_playing.
Proof.
  split; [|split; [|split]].
  - intros H. specialize (H (lit "A") eq_refl (lit "B")).
    assert (Hp : playing (exec [OnPlay (lit "B")] first_playing) (lit "B") = true)
      by reflexivity.
    rewrite H in Hp; [discriminate | vm_compute; discriminate].
  - intros H. specialize (H (lit "A") eq_refl (lit "B")).
    assert (Hp : playing
              (handlePlay (lit "B")
                 (handleVideoClick_begin (lit "B") (sample_result "B")
                    first_playing).1) (lit "B") = true)
      by reflexivity.
    rewrite H in Hp; [discriminate | vm_compute; discriminate].
  - intros H. specialize (H (lit "B") eq_refl []).
    assert (Hp : playing empty_id_then_other [] = true) by reflexivity.
    rewrite H in Hp; [discriminate | vm_compute; discriminate].
  - intros H. specialize (H (lit "A") eq_refl (lit "constructor")).
    assert (Hp : playing first_playing (lit "constructor") = true)
      by (vm_compute; reflexivity).
    rewrite H in Hp; [discriminate | vm_compute; discriminate].
Qed.

Lemma playback_inv_frame (s s' : State) :
  activeVideoId s' = activeVideoId s →
  isPlaying s' = isPlaying s →
  (∀ i, is_Some (videoRefs s !! i) → is_Some (videoRefs s' !! i)) →
  playback_inv s → playback_inv s'.
Proof.
  intros Ha Hp Hv [J1 J2]. unfold playback_inv.
  rewrite Ha, Hp. split; [|done].
  intros a Hact. destruct (J1 a Hact). auto.
Qed.

Lemma is_Some_alter (f : HTMLVideoElement → HTMLVideoElement)
    (k i : jsstring) (m : gmap jsstring HTMLVideoElement) :
  is_Some (m !! i) → is_Some (alter f k m !! i).
Proof.
  intros [v Hv]. destruct (decide (k = i)) as [->|Hne].
  - rewrite lookup_alter_eq, Hv. by eexists.
  - rewrite lookup_alter_ne, Hv by done. by eexists.
Qed.

Lemma is_Some_insert (v : HTMLVideoElement)
    (k i : jsstring) (m : gmap jsstring HTMLVideoElement) :
  is_Some (m !! i) → is_Some (<[k := v]> m !! i).
Proof.
  intros H. destruct (decide (k = i)) as [->|Hne].
  - rewrite lookup_insert_eq. by eexists.
  - by rewrite lookup_insert_ne.
Qed.

Lemma is_Some_fmap (f : HTMLVideoElement → HTMLVideoElement)
    (i : jsstring) (m : gmap jsstring HTMLVideoElement) :
  is_Some (m !! i) → is_Some ((f <$> m) !! i).
Proof. intros [v Hv]. rewrite lookup_fmap, Hv. by eexists. Qed.

Lemma marked_insert (k i : jsstring) (v : bool) (m : gmap jsstring bool) :
  <[k := v]> m !! i = Some true →
  (k = i ∧ v = true) ∨ (k ≠ i ∧ m !! i = Some true).
Proof.
  destruct (decide (k = i)) as [->|Hne].
  - rewrite lookup_insert_eq. intros [= ->]. by left.
  - rewrite lookup_insert_ne by done. by right.
Qed.

(** Marking an id not playing keeps the invariant. *)
Lemma playback_inv_mark_false (k : jsstring) (s : State) :
  playback_inv s → playback_inv (setIsPlaying (<[k := false]>) s).
Proof.
  intros [J1 J2]. split; [exact J1|].
  intros i Hi. simpl in Hi.
  apply marked_insert in Hi as [[_ ?] | [_ Hi]]; [done|]. by apply J2.
Qed.

(** Marking the active id playing keeps the invariant. *)
Lemma playback_inv_mark_active (k : jsstring) (s : State) :
  activeVideoId s = Some k →
  playback_inv s → playback_inv (setIsPlaying (<[k := true]>) s).
Proof.
  intros Hk [J1 J2]. split; [exact J1|].
  intros i Hi. simpl in Hi.
  apply marked_insert in Hi as [[<- _] | [_ Hi]]; [done|]. by apply J2.
Qed.

Lemma playback_inv_setVideoRefs
    (f : gmap jsstring HTMLVideoElement → gmap jsstring HTMLVideoElement)
    (s : State) :
  (∀ i, is_Some (videoRefs s !! i) → is_Some (f (videoRefs s) !! i)) →
  playback_inv s → playback_inv (setVideoRefs f s).
Proof. intros Hf. by apply playback_inv_frame. Qed.

(** After the pause of the active video at the start of a switch, nobody
    has the entry [true]. *)
Lemma switch_nobody_playing (s : State) :
  playback_inv s →
  let s1 :=
    match activeVideoId s with
    | Some active =>
        if truthy active && bool_decide (is_Some (videoRefs s !! active))
        then s |> setVideoRefs (alter video_pause active)
               |> setIsPlaying (<[active := false]>)
        else s
    | None => s
    end in
  activeVideoId s1 = activeVideoId s
  ∧ playback_inv s1
  ∧ ∀ i, isPlaying s1 !! i ≠ Some true.
Proof.
  intros J. pose proof J as [J1 J2].
  destruct (activeVideoId s) as [a|] eqn:Ha; simpl.
  - destruct (J1 a eq_refl) as [Hne Hv].
    apply truthy_true in Hne. rewrite Hne, bool_decide_eq_true_2 by done.
    simpl. split; [done|]. split.
    + apply playback_inv_mark_false, playback_inv_setVideoRefs;
        [ intros i; apply is_Some_alter | exact J ].
    + intros i Hi. apply marked_insert in Hi as [[_ ?] | [Hai Hi]]; [done|].
      apply J2 in Hi. congruence.
  - split; [done|]. split; [exact J|].
    intros i Hi. apply J2 in Hi. congruence.
Qed.

Lemma handleVideoClick_playback_inv (resultId : jsstring)
    (result : VideoSearchResult) (o : PlayOutcome) (s : State) :
  resultId ≠ [] →
  playback_inv s → playback_inv (handleVideoClick resultId result o s).
Proof.
  intros Hne J. unfold handleVideoClick, handleVideoClick_begin.
  destruct (videoRefs s !! resultId) as [video|] eqn:Hvideo; [|done].
  destruct (decide (activeVideoId s = Some resultId)) as [Hact|Hact].
  - destruct (paused video).
    + destruct o as [|abortError]; simpl.
      * apply playback_inv_mark_active; [done|].
        apply playback_inv_setVideoRefs; [intros i; apply is_Some_alter | done].
      * apply playback_inv_mark_false.
        destruct abortError; [done | by apply (playback_inv_frame s)].
    + apply playback_inv_mark_false, playback_inv_setVideoRefs;
        [ intros i; apply is_Some_alter | done ].
  - destruct (switch_nobody_playing s J) as (Ha1 & J' & Hnobody).
    set (s1 := match activeVideoId s with Some _ => _ | None => _ end) in *.
    assert (Hv1 : is_Some (videoRefs s1 !! resultId)).
    { subst s1. destruct (activeVideoId s) as [a|]; [|by eexists].
      case_match; [|by eexists]. simpl. apply is_Some_alter. by eexists. }
    destruct o as [|abortError]; simpl.
    + split.
      * intros a [= <-]. split; [done|]. simpl.
        by apply is_Some_alter, is_Some_alter.
      * intros i Hi. simpl in Hi.
        apply marked_insert in Hi as [[<- _] | [_ Hi]]; [done|].
        by apply Hnobody in Hi.
    + apply playback_inv_mark_false.
      assert (J2 : playback_inv
                (setVideoRefs (alter (video_seek (startTime_or_0 result)) resultId) s1)).
      { apply playback_inv_setVideoRefs; [intros i; apply is_Some_alter | done]. }
      destruct abortError; [done|]. by eapply playback_inv_frame, J2.
Qed.

Lemma step_playback_inv (e : Event) (s : State) :
  allowed e s → playback_inv s → playback_inv (step e s).1.
Proof.
  intros Hal J. destruct e; simpl in *.
  - by apply (playback_inv_frame s).
  - by apply (playback_inv_frame s).
  - unfold handleFileSelect_begin. repeat case_match; simplify_eq/=;
      by apply (playback_inv_frame s).
  - unfold handleFileSelect_settle. case_match; by apply (playback_inv_frame s).
  - by apply (playback_inv_frame s).
  - by apply (playback_inv_frame s).
  - unfold handleSearch_begin. case_match; by apply (playback_inv_frame s).
  - unfold handleSearch_settle, handleSearch_try, try_malformed.
    repeat case_match; simplify_eq/=;
      solve [ by apply (playback_inv_frame s) | by split ].
  - unfold handlePageChange_begin. case_match; by apply (playback_inv_frame s).
  - unfold handlePageChange_settle, try_malformed.
    repeat case_match; simplify_eq/=;
      solve [ by apply (playback_inv_frame s) | by split ].
  - destruct Hal as [Hne _]. by apply handleVideoClick_playback_inv.
  - apply playback_inv_mark_active; [done|].
    apply playback_inv_setVideoRefs; [intros i; apply is_Some_alter | done].
  - apply playback_inv_mark_false.
    apply playback_inv_setVideoRefs; [intros i; apply is_Some_alter | done].
  - apply playback_inv_setVideoRefs; [intros i; apply is_Some_insert | done].
  - unfold handleSearch_onClick. case_match; by apply (playback_inv_frame s).
Qed.

Lemma exec_playback_inv (es : list Event) (s : State) :
  admissible es s → playback_inv s → playback_inv (exec es s).
Proof.
  revert s. induction es as [|e es IH]; intros s Had J; [done|].
  destruct Had as [Hal Had]. rewrite exec_cons.
  by apply IH, step_playback_inv.
Qed.

Lemma playback_inv_initial : playback_inv initial.
Proof. split; [done|]. intros i. simpl. by rewrite lookup_empty. Qed.

(** C8, amended: in every state reached from the initial one by clicks
    on results whose id is not empty, each taken with the settling of
    its [video.play()], by [pause] events of any video, by [play]
    events of the active video, and by any other events (searches, page
    changes and their responses, uploads, edits, toggles, mounts of
    video elements) in any order, where the ids of the results that are
    clicked or mounted do not name a member of [Object.prototype]:
    whoever has the entry [true] in [isPlaying] is the active result;
    and if the active id is set, every other id that does not name a
    member of [Object.prototype] reads as not playing. *)
Theorem only_active_playing_invariant (es : list Event) :
  admissible es initial →
  (∀ active, activeVideoId (exec es initial) = Some active →
     ∀ i, i ≠ active → i ∉ object_prototype_members →
       playing (exec es initial) i = false)
  ∧ ∀ i, isPlaying (exec es initial) !! i = Some true →
         activeVideoId (exec es initial) = Some i.
Proof.
  intros Had.
  destruct (exec_playback_inv es initial Had playback_inv_initial) as [J1 J2].
  split; [|exact J2].
  intros a Ha i Hi Hproto. unfold playing.
  destruct (isPlaying (exec es initial) !! i) as [[]|] eqn:Hp.
  - apply J2 in Hp. congruence.
  - done.
  - by apply bool_decide_eq_false_2.
Qed.

Lemma only_active_playing_invariant_witness :
  (∀ active, activeVideoId (exec two_clicks initial) = Some active →
     ∀ i, i ≠ active → i ∉ object_prototype_members →
       playing (exec two_clicks initial) i = false)
  ∧ ∀ i, isPlaying (exec two_clicks initial) !! i = Some true →
         activeVideoId (exec two_clicks initial) = Some i.
Proof.
  apply (only_active_playing_invariant two_clicks).
  simpl. repeat split; try discriminate; by_compute.
Defined.

(** * Further properties of the component *)

(** ** [fileToBase64] *)

Lemma split_comma_not_nil (s : jsstring) : split_comma s ≠ [].
Proof. induction s as [|c s IH]; simpl; [done|]. by repeat case_match. Qed.

Lemma split_comma_no_comma (a : jsstring) :
  comma ∉ a → split_comma a = [a].
Proof.
  induction a as [|c a IH]; intros Hc; [done|].
  apply not_elem_of_cons in Hc as [Hne Hc]. simpl.
  destruct (c =? comma)%N eqn:E; [apply N.eqb_eq in E; congruence|].
  by rewrite IH.
Qed.

Lemma split_comma_app (a b : jsstring) :
  comma ∉ a → split_comma (a ++ comma :: b) = a :: split_comma b.
Proof.
  induction a as [|c a IH]; intros Hc; simpl.
  - done.
  - apply not_elem_of_cons in Hc as [Hne Hc].
    destruct (c =? comma)%N eqn:E; [apply N.eqb_eq in E; congruence|].
    by rewrite IH.
Qed.

Lemma split_comma_second (a b : jsstring) :
  comma ∉ a → comma ∉ b → split_comma (a ++ comma :: b) !! 1%nat = Some b.
Proof.
  intros Ha Hb. by rewrite (split_comma_app a b Ha), (split_comma_no_comma b Hb).
Qed.

(** X1: [fileToBase64] resolves with the text between the first and the
    second comma of what the reader gives: all that follows the first
    comma when there is no second one, nothing of what follows a second
    one, and [undefined] when there is no comma at all. *)
Theorem fileToBase64_between_commas (a b c : jsstring) :
  comma ∉ a → comma ∉ b →
  fileToBase64 (ReadLoaded (a ++ comma :: b)) = Resolved (Some b)
  ∧ fileToBase64 (ReadLoaded (a ++ comma :: b ++ comma :: c)) = Resolved (Some b)
  ∧ fileToBase64 (ReadLoaded a) = Resolved None.
Proof.
  intros Ha Hb. unfold fileToBase64.
  rewrite (split_comma_app a b Ha), (split_comma_app a _ Ha).
  rewrite (split_comma_app b c Hb).
  by rewrite (split_comma_no_comma a Ha), (split_comma_no_comma b Hb).
Qed.

Lemma fileToBase64_between_commas_witness :
  fileToBase64 (ReadLoaded (lit "data:image/png;base64" ++ comma :: lit "iVBO"))
  = Resolved (Some (lit "iVBO"))
  ∧ fileToBase64
      (ReadLoaded (lit "data:image/png;base64" ++ comma :: lit "iVBO"
                   ++ comma :: lit "rest"))
    = Resolved (Some (lit "iVBO"))
  ∧ fileToBase64 (ReadLoaded (lit "data:image/png;base64")) = Resolved None.
Proof.
  apply (fileToBase64_between_commas (lit "data:image/png;base64") (lit "iVBO")
           (lit "rest"));
    by_compute.
Defined.

(** X2: the preview of an uploaded image and [fileToBase64] are inverse
    to each other: for a file of an accepted type and a payload without
    a comma, reading the data URL of the preview gives the payload
    back. *)
Theorem preview_src_fileToBase64 (file : File) (base64 : jsstring) :
  file_type file ∈ validImageTypes →
  comma ∉ base64 →
  fileToBase64 (ReadLoaded (preview_src file base64)) = Resolved (Some base64).
Proof.
  intros Ht Hb. unfold preview_src.
  change (lit ";base64,") with (lit ";base64" ++ [comma]).
  rewrite <- (assoc_L (++) _ [comma] base64). simpl ([comma] ++ base64).
  rewrite !(assoc_L (++)).
  unfold fileToBase64. rewrite split_comma_second; [done| |done].
  rewrite !not_elem_of_app. split; [split|].
  - by_compute.
  - unfold validImageTypes in Ht.
    repeat (apply elem_of_cons in Ht as [-> | Ht];
            [by_compute|]).
    by apply elem_of_nil in Ht.
  - by_compute.
Qed.

Lemma preview_src_fileToBase64_witness :
  fileToBase64 (ReadLoaded (preview_src sample_png (lit "iVBORw0KGgo=")))
  = Resolved (Some (lit "iVBORw0KGgo=")).
Proof.
  apply (preview_src_fileToBase64 sample_png (lit "iVBORw0KGgo="));
    by_compute.
Defined.

(** ** [handleFileSelect] *)

Lemma filter_length_eq {A} (P : A → Prop) `{!∀ x, Decision (P x)} (l : list A) :
  length (filter P l) = length l ↔ Forall P l.
Proof.
  induction l as [|x l IH]; [by split|].
  rewrite filter_cons. destruct (decide (P x)) as [Hx|Hx]; simpl.
  - rewrite Forall_cons. split.
    + intros [= Hl]. split; [done|]. by apply IH.
    + intros [_ Hl]. f_equal. by apply IH.
  - split.
    + intros Hl. pose proof (length_filter P l). lia.
    + intros Hl. by apply Forall_cons in Hl as [? _].
Qed.

Lemma handleFileSelect_begin_not_empty (files : list File) (s : State) :
  files ≠ [] →
  handleFileSelect_begin files s
  = (if negb (length (filter (λ file, file_type file ∈ validImageTypes) files)
              =? length files)%nat
     then setError skipped_message s else s,
     Some (filter (λ file, file_type file ∈ validImageTypes) files)).
Proof. intros Hne. unfold handleFileSelect_begin. by destruct files. Qed.

(** X3: a selection that is not empty goes on with the files of an
    accepted type, in their order; it leaves the state as it is when
    every file is accepted, and sets the "skipped" warning, and nothing
    else, when one is not. *)
Theorem handleFileSelect_begin_skips (files : list File) (s : State) :
  files ≠ [] →
  (handleFileSelect_begin files s).2
  = Some (filter (λ file, file_type file ∈ validImageTypes) files)
  ∧ (Forall (λ file, file_type file ∈ validImageTypes) files →
     (handleFileSelect_begin files s).1 = s)
  ∧ (¬ Forall (λ file, file_type file ∈ validImageTypes) files →
     (handleFileSelect_begin files s).1 = setError skipped_message s).
Proof.
  intros Hne. rewrite handleFileSelect_begin_not_empty by done. simpl.
  split; [done|].
  destruct (length _ =? length files)%nat eqn:E; simpl.
  - apply Nat.eqb_eq, filter_length_eq in E. by split.
  - apply Nat.eqb_neq in E. rewrite filter_length_eq in E. by split.
Qed.

Lemma handleFileSelect_begin_skips_witness :
  (handleFileSelect_begin [sample_png; sample_pdf; sample_jpeg] initial).2
  = Some [sample_png; sample_jpeg]
  ∧ (handleFileSelect_begin [sample_png; sample_jpeg] initial).1 = initial
  ∧ (handleFileSelect_begin [sample_png; sample_pdf; sample_jpeg] initial).1
    = setError skipped_message initial.
Proof.
  split; [|split].
  - apply (handleFileSelect_begin_skips [sample_png; sample_pdf; sample_jpeg]
             initial). discriminate.
  - apply (handleFileSelect_begin_skips [sample_png; sample_jpeg] initial);
      [discriminate | by_compute].
  - apply (handleFileSelect_begin_skips [sample_png; sample_pdf; sample_jpeg]
             initial); [discriminate | by_compute].
Defined.

Lemma read_all_None (reader : File → option jsstring) (l : list File)
    (file : File) :
  file ∈ l → reader file = None → read_all reader l = None.
Proof.
  intros Hin Hr. unfold read_all.
  induction l as [|x l IH]; [by apply elem_of_nil in Hin|]. simpl.
  apply elem_of_cons in Hin as [<- | Hin].
  - by rewrite Hr.
  - destruct (reader x); simpl; [|done]. by rewrite IH.
Qed.

Lemma read_all_Some (reader : File → option jsstring) (g : File → jsstring)
    (l : list File) :
  (∀ file, file ∈ l → reader file = Some (g file)) →
  read_all reader l
  = Some ((λ file, {| bc_file := file; bc_base64 := g file |}) <$> l).
Proof.
  intros Hg. unfold read_all. induction l as [|x l IH]; [done|]. simpl.
  rewrite (Hg x) by (apply elem_of_cons; by left). simpl.
  rewrite IH; [done|]. intros file Hin. apply Hg. apply elem_of_cons. by right.
Qed.

(** X4: when the reading of one accepted file of a selection fails, the
    whole selection is dropped: both lists are as before, the error is
    the "failed" message, also when files were skipped, and the failure
    is logged once. *)
Theorem handleFileSelect_one_failure (files : list File)
    (reader : File → option jsstring) (file : File) (s : State) :
  file ∈ files →
  file_type file ∈ validImageTypes →
  reader file = None →
  selectedFiles (handleFileSelect files reader s) = selectedFiles s
  ∧ base64Contents (handleFileSelect files reader s) = base64Contents s
  ∧ error (handleFileSelect files reader s) = failed_message
  ∧ console (handleFileSelect files reader s) = console s ++ [LogFileProcessing].
Proof.
  intros Hin Ht Hr.
  assert (Hne : files ≠ []) by (intros ->; by apply elem_of_nil in Hin).
  unfold handleFileSelect. rewrite handleFileSelect_begin_not_empty by done.
  unfold handleFileSelect_settle.
  rewrite (read_all_None reader _ file); [ | by apply list_elem_of_filter | done].
  by case_match.
Qed.

Lemma handleFileSelect_one_failure_witness :
  selectedFiles (handleFileSelect [sample_pdf; sample_png] reads_none initial) = []
  ∧ base64Contents (handleFileSelect [sample_pdf; sample_png] reads_none initial)
    = []
  ∧ error (handleFileSelect [sample_pdf; sample_png] reads_none initial)
    = failed_message
  ∧ console (handleFileSelect [sample_pdf; sample_png] reads_none initial)
    = [] ++ [LogFileProcessing].
Proof.
  apply (handleFileSelect_one_failure [sample_pdf; sample_png] reads_none
           sample_png initial); [by_compute | by_compute | reflexivity].
Defined.

Lemma handleFileSelect_reads (files : list File)
    (reader : File → option jsstring) (g : File → jsstring) (s : State) :
  files ≠ [] →
  (∀ file, file ∈ files → file_type file ∈ validImageTypes →
           reader file = Some (g file)) →
  selectedFiles (handleFileSelect files reader s)
  = selectedFiles s ++ filter (λ file, file_type file ∈ validImageTypes) files
  ∧ base64Contents (handleFileSelect files reader s)
    = base64Contents s
      ++ ((λ file, {| bc_file := file; bc_base64 := g file |})
          <$> filter (λ file, file_type file ∈ validImageTypes) files).
Proof.
  intros Hne Hg.
  unfold handleFileSelect. rewrite handleFileSelect_begin_not_empty by done.
  unfold handleFileSelect_settle. rewrite (read_all_Some reader g).
  - by case_match.
  - intros file Hin. apply list_elem_of_filter in Hin as [Ht Hin]. by apply Hg.
Qed.

(** X5: when every accepted file of a selection is read, the accepted
    files are appended to [selectedFiles] and their entries, each file
    with its own payload, to [base64Contents], in the order of the
    selection; the files that are not accepted are not read and do not
    fail the selection. *)
Theorem handleFileSelect_all_read (files : list File)
    (reader : File → option jsstring) (g : File → jsstring) (s : State) :
  files ≠ [] →
  (∀ file, file ∈ files → file_type file ∈ validImageTypes →
           reader file = Some (g file)) →
  selectedFiles (handleFileSelect files reader s)
  = selectedFiles s ++ filter (λ file, file_type file ∈ validImageTypes) files
  ∧ base64Contents (handleFileSelect files reader s)
    = base64Contents s
      ++ ((λ file, {| bc_file := file; bc_base64 := g file |})
          <$> filter (λ file, file_type file ∈ validImageTypes) files).
Proof. apply handleFileSelect_reads. Qed.

Lemma handleFileSelect_all_read_witness :
  selectedFiles (handleFileSelect [sample_png; sample_pdf; sample_jpeg]
                   (λ file, if decide (file = sample_pdf) then None
                            else Some (file_name file)) initial)
  = [] ++ [sample_png; sample_jpeg]
  ∧ base64Contents (handleFileSelect [sample_png; sample_pdf; sample_jpeg]
                      (λ file, if decide (file = sample_pdf) then None
                               else Some (file_name file)) initial)
    = [] ++ [ {| bc_file := sample_png; bc_base64 := lit "a.png" |};
              {| bc_file := sample_jpeg; bc_base64 := lit "c.jpg" |} ].
Proof.
  apply (handleFileSelect_all_read [sample_png; sample_pdf; sample_jpeg]
           (λ file, if decide (file = sample_pdf) then None
                    else Some (file_name file)) file_name initial).
  - discriminate.
  - intros file Hin Ht.
    repeat (apply elem_of_cons in Hin as [-> | Hin]); try reflexivity.
    + exfalso. revert Ht. by_compute.
    + by apply elem_of_nil in Hin.
Defined.

(** ** [removeImage] *)

Lemma filter_index_ne_spec {A} (index : Z) (i : nat) (l : list A) :
  filter_index_ne index i l
  = if decide (Z.of_nat i ≤ index) then delete (Z.to_nat index - i)%nat l else l.
Proof.
  revert i. induction l as [|x l IH]; intros i; simpl.
  - by case_decide.
  - rewrite IH. destruct (Z.of_nat i =? index) eqn:E.
    + apply Z.eqb_eq in E. subst index.
      rewrite decide_False, decide_True by lia.
      by replace (Z.to_nat (Z.of_nat i) - i)%nat with 0%nat by lia.
    + apply Z.eqb_neq in E. destruct (decide (Z.of_nat i ≤ index)).
      * rewrite decide_True by lia.
        by replace (Z.to_nat index - i)%nat
          with (S (Z.to_nat index - S i)) by lia.
      * by rewrite decide_False by lia.
Qed.

Lemma delete_out_of_range {A} (i : nat) (l : list A) :
  (length l ≤ i)%nat → delete i l = l.
Proof.
  intros Hi. rewrite delete_take_drop, take_ge, drop_ge by lia.
  by rewrite app_nil_r.
Qed.

Lemma removeImage_lists (i : nat) (s : State) :
  selectedFiles (removeImage (Z.of_nat i) s) = delete i (selectedFiles s)
  ∧ base64Contents (removeImage (Z.of_nat i) s) = delete i (base64Contents s).
Proof.
  simpl. rewrite !filter_index_ne_spec, !decide_True by lia.
  by replace (Z.to_nat (Z.of_nat i) - 0)%nat with i by lia.
Qed.

(** X6: [removeImage] at an index that counts from 0 removes the entry
    at that index, and no other, from [selectedFiles] and from
    [base64Contents]; each list keeps the order of what is left. *)
Theorem removeImage_deletes (i : nat) (s : State) :
  selectedFiles (removeImage (Z.of_nat i) s) = delete i (selectedFiles s)
  ∧ base64Contents (removeImage (Z.of_nat i) s) = delete i (base64Contents s).
Proof. apply removeImage_lists. Qed.

(** X7: [removeImage] at a negative index, or at an index past the end
    of both lists, changes nothing. *)
Theorem removeImage_out_of_range (index : Z) (s : State) :
  index < 0
  ∨ (Z.of_nat (length (selectedFiles s)) ≤ index
     ∧ Z.of_nat (length (base64Contents s)) ≤ index) →
  removeImage index s = s.
Proof.
  intros H. unfold removeImage, setSelectedFiles, setBase64Contents. simpl.
  rewrite !filter_index_ne_spec.
  destruct H as [H | [H1 H2]].
  - rewrite !decide_False by lia. by destruct s.
  - rewrite !decide_True by lia. rewrite !delete_out_of_range by lia.
    by destruct s.
Qed.

Lemma removeImage_out_of_range_witness :
  removeImage 1 (handleFileSelect [sample_png] reads_all initial)
  = handleFileSelect [sample_png] reads_all initial.
Proof.
  apply (removeImage_out_of_range 1
           (handleFileSelect [sample_png] reads_all initial)).
  right. split; vm_compute; discriminate.
Defined.

(** X8: in every state that the component reaches, the upload of one
    accepted file that is read, followed by the removal of the image
    shown last, gives back the two lists as they were. *)
Theorem upload_then_remove_last (es : list Event) (file : File)
    (reader : File → option jsstring) (base64 : jsstring) :
  file_type file ∈ validImageTypes →
  reader file = Some base64 →
  selectedFiles
    (removeImage (Z.of_nat (length (base64Contents (exec es initial))))
       (handleFileSelect [file] reader (exec es initial)))
  = selectedFiles (exec es initial)
  ∧ base64Contents
      (removeImage (Z.of_nat (length (base64Contents (exec es initial))))
         (handleFileSelect [file] reader (exec es initial)))
    = base64Contents (exec es initial).
Proof.
  intros Ht Hr. set (s := exec es initial).
  assert (Ha : aligned s) by by apply exec_aligned.
  assert (Hl : length (selectedFiles s) = length (base64Contents s)).
  { unfold aligned in Ha. by rewrite <- Ha, length_fmap. }
  destruct (handleFileSelect_reads [file] reader (λ _, base64) s)
    as [Hs Hb]; [done | |].
  { intros f Hin _. apply list_elem_of_singleton in Hin. by subst. }
  destruct (removeImage_lists (length (base64Contents s))
              (handleFileSelect [file] reader s)) as [Ds Db].
  rewrite Ds, Db, Hs, Hb. rewrite filter_cons, decide_True by done.
  rewrite filter_nil. simpl fmap.
  rewrite <- Hl at 1.
  rewrite !delete_take_drop.
  rewrite !take_app_length, !drop_app_ge by lia.
  replace (S (length (selectedFiles s)) - length (selectedFiles s))%nat
    with 1%nat by lia.
  replace (S (length (base64Contents s)) - length (base64Contents s))%nat
    with 1%nat by lia.
  simpl. by rewrite !app_nil_r.
Qed.

Lemma upload_then_remove_last_witness :
  selectedFiles
    (removeImage
       (Z.of_nat (length (base64Contents
                            (exec [OnFileSelect [sample_jpeg];
                                   FileSelectSettled [sample_jpeg] reads_all]
                               initial))))
       (handleFileSelect [sample_png] reads_all
          (exec [OnFileSelect [sample_jpeg];
                 FileSelectSettled [sample_jpeg] reads_all] initial)))
  = selectedFiles (exec [OnFileSelect [sample_jpeg];
                         FileSelectSettled [sample_jpeg] reads_all] initial)
  ∧ base64Contents
      (removeImage
         (Z.of_nat (length (base64Contents
                              (exec [OnFileSelect [sample_jpeg];
                                     FileSelectSettled [sample_jpeg] reads_all]
                                 initial))))
         (handleFileSelect [sample_png] reads_all
            (exec [OnFileSelect [sample_jpeg];
                   FileSelectSettled [sample_jpeg] reads_all] initial)))
    = base64Contents (exec [OnFileSelect [sample_jpeg];
                            FileSelectSettled [sample_jpeg] reads_all] initial).
Proof.
  apply (upload_then_remove_last
           [OnFileSelect [sample_jpeg]; FileSelectSettled [sample_jpeg] reads_all]
           sample_png reads_all (lit "iVBORw0KGgo="));
    [by_compute | reflexivity].
Defined.

(** ** [handleSearch] *)

Lemma trimStart_nil (s : jsstring) :
  trimStart s = [] ↔ Forall (λ c, is_white_space c = true) s.
Proof.
  induction s as [|c s IH]; simpl; [by split|].
  destruct (is_white_space c) eqn:E.
  - rewrite IH, Forall_cons. split; [by split | by intros [_ ?]].
  - split; [done|]. intros Hf. apply Forall_cons in Hf as [Hc _]. congruence.
Qed.

Lemma trimStart_head (s t : jsstring) (c : N) :
  trimStart s = c :: t → is_white_space c = false.
Proof.
  induction s as [|d s IH]; simpl; [done|].
  destruct (is_white_space d) eqn:E; [done|].
  intros Heq. injection Heq as Hd _. by rewrite <- Hd.
Qed.

Lemma trim_nil (s : jsstring) :
  trim s = [] ↔ Forall (λ c, is_white_space c = true) s.
Proof.
  unfold trim, trimEnd. rewrite <- trimStart_nil.
  split.
  - intros Hr. apply (f_equal reverse) in Hr.
    rewrite reverse_involutive in Hr. change (reverse []) with (@nil N) in Hr.
    apply trimStart_nil in Hr. rewrite Forall_reverse in Hr.
    destruct (trimStart s) as [|c t] eqn:E; [done|].
    apply trimStart_head in E. apply Forall_cons in Hr as [Hc _]. congruence.
  - by intros ->.
Qed.

(** X9: called with a number for the page (the Enter key calls it with
    none, which is page 1), [handleSearch] sends no request exactly when
    the text consists of white space only (or is empty) and no image is
    uploaded; in all other cases it sends one request, for that page,
    with a page size of 10 and at least one query.  Called by the Search
    button, which passes its click event as the page, it never sends a
    request: on a blank input it sets the validation message, as with a
    number; on any other input the payload cannot be written as JSON,
    and the call ends with the fixed error message, no results, the
    pagination at page 1 of 0, the queries captured, and nothing
    loading. *)
Theorem handleSearch_number_or_click (page : Z) (s : State) :
  (((handleSearch_begin page s).2 = None
    ↔ Forall (λ c, is_white_space c = true) (searchTerm s)
      ∧ base64Contents s = [])
   ∧ ((handleSearch_begin page s).2 = None
      ∨ (handleSearch_begin page s).2
        = Some {| queries := build_queries s; page := page; page_size := 10 |}
        ∧ build_queries s ≠ []))
  ∧ (step OnSearchClick s).2 = None
  ∧ (trim (searchTerm s) = [] → base64Contents s = [] →
     handleSearch_onClick s = setError validation_message s)
  ∧ (trim (searchTerm s) ≠ [] ∨ base64Contents s ≠ [] →
     error (handleSearch_onClick s) = search_failed_message
     ∧ results (handleSearch_onClick s) = []
     ∧ (currentPage (handleSearch_onClick s), totalPages (handleSearch_onClick s),
        totalResults (handleSearch_onClick s)) = (1, 0, 0)
     ∧ hasSearched (handleSearch_onClick s) = true
     ∧ lastSearchQueries (handleSearch_onClick s) = build_queries s
     ∧ loading (handleSearch_onClick s) = false
     ∧ console (handleSearch_onClick s)
       = console s ++ [LogSearch TypeErrorThrown]).
Proof.
  split; [|split; [done|split]].
  - unfold handleSearch_begin, build_queries. rewrite <- trim_nil.
    destruct (trim (searchTerm s)) as [|c t] eqn:Et; simpl.
    + destruct (base64Contents s) as [|b bs] eqn:Eb; simpl.
      * split; [by split | by left].
      * split; [split; [done | by intros [_ ?]] | by right].
    + split; [split; [done | by intros [? _]] | by right].
  - intros Ht Hb. unfold handleSearch_onClick. by rewrite Ht, Hb.
  - intros Hn. unfold handleSearch_onClick.
    destruct (trim (searchTerm s)) as [|c t] eqn:Et; simpl; [|done].
    destruct (base64Contents s) as [|b bs] eqn:Eb; simpl; [|done].
    by destruct Hn.
Qed.

Lemma handleSearch_number_or_click_witness :
  handleSearch_onClick blank_input = setError validation_message blank_input
  ∧ error (handleSearch_onClick (setSearchTerm (lit "cat") initial))
    = search_failed_message
  ∧ lastSearchQueries (handleSearch_onClick (setSearchTerm (lit "cat") initial))
    = build_queries (setSearchTerm (lit "cat") initial)
  ∧ (step OnSearchClick (setSearchTerm (lit "cat") initial)).2 = None.
Proof.
  destruct (handleSearch_number_or_click 1 blank_input) as (_ & _ & Hb & _).
  destruct (handleSearch_number_or_click 1 (setSearchTerm (lit "cat") initial))
    as (_ & Hn & _ & Hc).
  destruct Hc as (He & _ & _ & _ & Hq & _); [left; vm_compute; discriminate|].
  split; [apply Hb; reflexivity|]. split; [exact He|]. split; [exact Hq|].
  exact Hn.
Defined.

(** X10: a search that is sent and answered by an ok response that
    parses stores the results and the three numbers of the pagination
    as they come, has the flag of a past search set, keeps the queries
    it has sent for pagination, ends loading, and leaves as error the
    "no results" message when the list of results is empty and the
    empty string when it is not. *)
Theorem handleSearch_success (page : Z) (s : State) (text : jsstring)
    (data : SearchResponse) (r : SearchPayload) :
  (handleSearch_begin page s).2 = Some r →
  let s' := (handleSearch page (Responded true text (Some data)) s).1 in
  results s' = sr_results data
  ∧ (currentPage s', totalPages s', totalResults s')
    = (pg_currentPage (sr_pagination data), pg_totalPages (sr_pagination data),
       pg_totalResults (sr_pagination data))
  ∧ hasSearched s' = true
  ∧ lastSearchQueries s' = queries r
  ∧ loading s' = false
  ∧ error s' = (if decide (sr_results data = []) then no_results_message else []).
Proof.
  unfold handleSearch, handleSearch_begin. case_match; [done|].
  simpl. intros [= <-]. unfold handleSearch_try.
  destruct (sr_results data) as [|x l] eqn:Er; simpl; rewrite ?Er; done.
Qed.

Lemma handleSearch_success_witness :
  results (handleSearch 1 (sample_page 1)
             (setSearchTerm (lit "sunset beach") initial)).1
  = [sample_result "r1"]
  ∧ (currentPage (handleSearch 1 (sample_page 1)
                    (setSearchTerm (lit "sunset beach") initial)).1,
     totalPages (handleSearch 1 (sample_page 1)
                   (setSearchTerm (lit "sunset beach") initial)).1,
     totalResults (handleSearch 1 (sample_page 1)
                     (setSearchTerm (lit "sunset beach") initial)).1)
    = (1, 3, 25)
  ∧ hasSearched (handleSearch 1 (sample_page 1)
                   (setSearchTerm (lit "sunset beach") initial)).1 = true
  ∧ lastSearchQueries (handleSearch 1 (sample_page 1)
                         (setSearchTerm (lit "sunset beach") initial)).1
    = sunset_query
  ∧ loading (handleSearch 1 (sample_page 1)
               (setSearchTerm (lit "sunset beach") initial)).1 = false
  ∧ error (handleSearch 1 (sample_page 1)
             (setSearchTerm (lit "sunset beach") initial)).1 = [].
Proof.
  apply (handleSearch_success 1 (setSearchTerm (lit "sunset beach") initial) []
           {| sr_results := [sample_result "r1"];
              sr_pagination := {| pg_currentPage := 1; pg_totalPages := 3;
                                  pg_totalResults := 25; pg_hasMore := true |} |}
           {| queries := sunset_query; page := 1; page_size := 10 |}).
  reflexivity.
Defined.

(** X11: a failure of any kind while searching (the request fails, the
    response is not ok, its body does not parse, or it parses into a
    malformed body) clears the results, puts the pagination back to page
    1 of 0 with 0 results, sets the fixed error message, logs what was
    thrown and ends loading.  When the failure comes before the body is
    used, the active video, the playing marks and the video elements
    are left as they are; a malformed body throws after the reset of
    the playback, which leaves no active video, no marks, and every
    video element paused. *)
Theorem handleSearch_any_failure (o : FetchOutcome) (s : State) :
  is_success o = false →
  let s' := handleSearch_settle o s in
  results s' = []
  ∧ (currentPage s', totalPages s', totalResults s') = (1, 0, 0)
  ∧ error s' = search_failed_message
  ∧ console s' = console s ++ [LogSearch (thrown_by o)]
  ∧ loading s' = false
  ∧ (body_used o = false →
     (activeVideoId s', isPlaying s', videoRefs s')
     = (activeVideoId s, isPlaying s, videoRefs s))
  ∧ (body_used o = true →
     activeVideoId s' = None ∧ isPlaying s' = ∅
     ∧ ∀ i v, videoRefs s' !! i = Some v → paused v = true).
Proof.
  intros Hf.
  destruct o as [|[] text [data|]|text []]; try discriminate Hf; simpl;
    do 5 (split; [done|]);
    (split; [by intros ?|]); intros Hb; try discriminate Hb;
    (split; [done|]); (split; [done|]);
    intros i v; apply (pause_all_videos_paused s).
Qed.

Lemma handleSearch_any_failure_witness :
  results (handleSearch_settle (RespondedMalformed [] BodyNull) first_playing)
  = []
  ∧ error (handleSearch_settle (RespondedMalformed [] BodyNull) first_playing)
    = search_failed_message
  ∧ activeVideoId (handleSearch_settle (RespondedMalformed [] BodyNull)
                     first_playing) = None
  ∧ isPlaying (handleSearch_settle (RespondedMalformed [] BodyNull)
                 first_playing) = ∅
  ∧ (activeVideoId (handleSearch_settle FetchFailed first_playing),
     isPlaying (handleSearch_settle FetchFailed first_playing),
     videoRefs (handleSearch_settle FetchFailed first_playing))
    = (activeVideoId first_playing, isPlaying first_playing,
       videoRefs first_playing).
Proof.
  destruct (handleSearch_any_failure (RespondedMalformed [] BodyNull)
              first_playing) as (Hr & _ & He & _ & _ & _ & Hu); [reflexivity|].
  destruct (Hu eq_refl) as (Ha & Hp & _).
  destruct (handleSearch_any_failure FetchFailed first_playing)
    as (_ & _ & _ & _ & _ & Hk & _); [reflexivity|].
  split; [exact Hr|]. split; [exact He|]. split; [exact Ha|].
  split; [exact Hp|]. apply Hk. reflexivity.
Defined.



(** X13: the yellow "No Results" box is shown after a page change: when
    a search has been made, no error is set, and the response to a page
    change is ok with an empty list of results, the box is shown and the
    red one is not. *)
Theorem no_results_banner_after_empty_page (s : State) (text : jsstring)
    (data : SearchResponse) :
  hasSearched s = true →
  error s = [] →
  sr_results data = [] →
  no_results_banner (handlePageChange_settle (Responded true text (Some data)) s)
  = true
  ∧ error_banner (handlePageChange_settle (Responded true text (Some data)) s)
    = false.
Proof.
  intros Hh He Hr. unfold no_results_banner, error_banner. simpl.
  by rewrite Hr, He, Hh.
Qed.

Lemma no_results_banner_after_empty_page_witness :
  no_results_banner
    (handlePageChange_settle (Responded true [] (Some empty_page))
       (handleSearch 1 (sample_page 1) (setSearchTerm (lit "cat") initial)).1)
  = true
  ∧ error_banner
      (handlePageChange_settle (Responded true [] (Some empty_page))
         (handleSearch 1 (sample_page 1) (setSearchTerm (lit "cat") initial)).1)
    = false.
Proof.
  apply (no_results_banner_after_empty_page
           (handleSearch 1 (sample_page 1) (setSearchTerm (lit "cat") initial)).1
           [] empty_page); reflexivity.
Defined.

(** ** [handlePageChange] *)

(** X14: a failure of any kind while changing page sets the pagination
    message, logs what was thrown and ends loading, and leaves the three
    numbers of the pagination and the captured queries as they are.
    When the failure comes before the body is used (the request fails,
    the response is not ok, or its body does not parse), the results and
    the playback are also left as they are: the page shown before stays
    on screen.  A malformed body throws after the reset of the playback:
    no active video, no marks, every video element paused; the results
    are as before when the body is [null], and are those of the body
    when it has results and no pagination. *)
Theorem handlePageChange_any_failure (o : FetchOutcome) (s : State) :
  is_success o = false →
  let s' := handlePageChange_settle o s in
  (currentPage s', totalPages s', totalResults s')
  = (currentPage s, totalPages s, totalResults s)
  ∧ lastSearchQueries s' = lastSearchQueries s
  ∧ error s' = pagination_message
  ∧ console s' = console s ++ [LogPagination (thrown_by o)]
  ∧ loading s' = false
  ∧ (body_used o = false →
     results s' = results s
     ∧ (activeVideoId s', isPlaying s', videoRefs s')
       = (activeVideoId s, isPlaying s, videoRefs s))
  ∧ (body_used o = true →
     activeVideoId s' = None ∧ isPlaying s' = ∅
     ∧ (∀ i v, videoRefs s' !! i = Some v → paused v = true)
     ∧ results s'
       = match o with
         | RespondedMalformed _ (BodyWithoutPagination results) => results
         | _ => results s
         end).
Proof.
  intros Hf.
  destruct o as [|[] text [data|]|text []]; try discriminate Hf; simpl;
    do 5 (split; [done|]);
    (split; [by intros ?|]); intros Hb; try discriminate Hb;
    (split; [done|]); (split; [done|]); (split; [|done]);
    intros i v; apply (pause_all_videos_paused s).
Qed.

Lemma handlePageChange_any_failure_witness :
  results (handlePageChange_settle (Responded false (lit "oops") None)
             first_playing) = results first_playing
  ∧ (activeVideoId (handlePageChange_settle (Responded false (lit "oops") None)
                      first_playing),
     isPlaying (handlePageChange_settle (Responded false (lit "oops") None)
                  first_playing),
     videoRefs (handlePageChange_settle (Responded false (lit "oops") None)
                  first_playing))
    = (activeVideoId first_playing, isPlaying first_playing,
       videoRefs first_playing)
  ∧ error (handlePageChange_settle (Responded false (lit "oops") None)
             first_playing) = pagination_message
  ∧ activeVideoId
      (handlePageChange_settle
         (RespondedMalformed [] (BodyWithoutPagination [sample_result "r9"]))
         first_playing) = None
  ∧ results
      (handlePageChange_settle
         (RespondedMalformed [] (BodyWithoutPagination [sample_result "r9"]))
         first_playing) = [sample_result "r9"].
Proof.
  destruct (handlePageChange_any_failure (Responded false (lit "oops") None)
              first_playing) as (_ & _ & He & _ & _ & Hk & _); [reflexivity|].
  destruct (Hk eq_refl) as [Hr Hp].
  destruct (handlePageChange_any_failure
              (RespondedMalformed [] (BodyWithoutPagination [sample_result "r9"]))
              first_playing) as (_ & _ & _ & _ & _ & _ & Hu); [reflexivity|].
  destruct (Hu eq_refl) as (Ha & _ & _ & Hres).
  split; [exact Hr|]. split; [exact Hp|]. split; [exact He|].
  split; [exact Ha | exact Hres].
Defined.



(** X16: two searches overlap and the response to the second arrives
    first.  Then the response to the first search is the one that stays
    on screen, while the queries kept for pagination are those of the
    second search; and loading has ended on the first response to
    arrive, with the other still pending. *)
Theorem overlapping_searches_last_response_wins (s : State)
    (page1 page2 : Z) (value : jsstring) (text1 text2 : jsstring)
    (data1 data2 : SearchResponse) (r1 r2 : SearchPayload) :
  (step (OnSearch page1) s).2 = Some r1 →
  (step (OnSearch page2) (exec [OnSearch page1; OnChange value] s)).2
  = Some r2 →
  let s' := exec [OnSearch page1; OnChange value; OnSearch page2;
                  SearchSettled (Responded true text2 (Some data2));
                  SearchSettled (Responded true text1 (Some data1))] s in
  results s' = sr_results data1
  ∧ currentPage s' = pg_currentPage (sr_pagination data1)
  ∧ lastSearchQueries s' = queries r2
  ∧ queries r2 = build_queries (setSearchTerm value s)
  ∧ loading (exec [OnSearch page1; OnChange value; OnSearch page2;
                   SearchSettled (Responded true text2 (Some data2))] s)
    = false.
Proof.
  unfold exec. simpl. unfold handleSearch_begin.
  destruct (negb (truthy (trim (searchTerm s)))
            && (length (base64Contents s) =? 0)%nat); [done|].
  simpl. intros _.
  destruct (negb (truthy (trim value))
            && (length (base64Contents s) =? 0)%nat); [done|].
  simpl. intros [= <-]. unfold handleSearch_settle, handleSearch_try.
  destruct (length (sr_results data1) =? 0)%nat,
    (length (sr_results data2) =? 0)%nat; done.
Qed.

Lemma overlapping_searches_last_response_wins_witness :
  results (exec [OnSearch 1; OnChange (lit "dog"); OnSearch 1;
                 SearchSettled (Responded true [] (Some empty_page));
                 SearchSettled (sample_page 1)]
             (setSearchTerm (lit "cat") initial))
  = [sample_result "r1"]
  ∧ currentPage (exec [OnSearch 1; OnChange (lit "dog"); OnSearch 1;
                       SearchSettled (Responded true [] (Some empty_page));
                       SearchSettled (sample_page 1)]
                   (setSearchTerm (lit "cat") initial)) = 1
  ∧ lastSearchQueries (exec [OnSearch 1; OnChange (lit "dog"); OnSearch 1;
                             SearchSettled (Responded true [] (Some empty_page));
                             SearchSettled (sample_page 1)]
                         (setSearchTerm (lit "cat") initial))
    = [{| q_type := QText; q_value := lit "dog";
          q_embedding_model := lit "multimodal" |}]
  ∧ [{| q_type := QText; q_value := lit "dog";
        q_embedding_model := lit "multimodal" |}]
    = build_queries (setSearchTerm (lit "dog") (setSearchTerm (lit "cat") initial))
  ∧ loading (exec [OnSearch 1; OnChange (lit "dog"); OnSearch 1;
                   SearchSettled (Responded true [] (Some empty_page))]
               (setSearchTerm (lit "cat") initial)) = false.
Proof.
  apply (overlapping_searches_last_response_wins
           (setSearchTerm (lit "cat") initial) 1 1 (lit "dog") [] []
           {| sr_results := [sample_result "r1"];
              sr_pagination := {| pg_currentPage := 1; pg_totalPages := 3;
                                  pg_totalResults := 25; pg_hasMore := true |} |}
           empty_page
           {| queries := [{| q_type := QText; q_value := lit "cat";
                             q_embedding_model := lit "multimodal" |}];
              page := 1; page_size := 10 |}
           {| queries := [{| q_type := QText; q_value := lit "dog";
                             q_embedding_model := lit "multimodal" |}];
              page := 1; page_size := 10 |});
    reflexivity.
Defined.

(** ** The label of the search button *)

(** X19: when the button reads "Search All (n queries)", the queries
    that [handleSearch] builds are n in number if the text has a
    character that is not white space, and n - 1, one fewer than the
    button says, if the text is white space only.  The Enter key sends
    them in one request.  A click on the button itself captures them for
    pagination and sends nothing: it ends with the fixed error
    message. *)
Theorem search_button_count (s : State) (n : nat) :
  search_button_label s = LabelSearchAll n →
  length (build_queries s)
  = (if truthy (trim (searchTerm s)) then n else n - 1)%nat
  ∧ (handleSearch_begin 1 s).2
    = Some {| queries := build_queries s; page := 1; page_size := 10 |}
  ∧ (step OnSearchClick s).2 = None
  ∧ lastSearchQueries (handleSearch_onClick s) = build_queries s
  ∧ error (handleSearch_onClick s) = search_failed_message.
Proof.
  unfold search_button_label, handleSearch_begin, handleSearch_onClick.
  destruct (truthy (searchTerm s)) eqn:Es; [|done].
  destruct (base64Contents s) as [|b bs] eqn:Eb; [done|]. simpl.
  intros [= <-]. rewrite andb_false_r. simpl.
  split; [|done]. unfold build_queries. rewrite Eb.
  destruct (truthy (trim (searchTerm s))); simpl; rewrite length_fmap; lia.
Qed.

Lemma search_button_count_witness :
  length (build_queries two_images_blank_text)
  = (if truthy (trim (searchTerm two_images_blank_text)) then 3 else 3 - 1)%nat
  ∧ (handleSearch_begin 1 two_images_blank_text).2
    = Some {| queries := build_queries two_images_blank_text; page := 1;
              page_size := 10 |}
  ∧ (step OnSearchClick two_images_blank_text).2 = None
  ∧ lastSearchQueries (handleSearch_onClick two_images_blank_text)
    = build_queries two_images_blank_text
  ∧ error (handleSearch_onClick two_images_blank_text) = search_failed_message.
Proof. apply (search_button_count two_images_blank_text 3). reflexivity. Defined.

(** ** [handleVideoClick] *)

Lemma startTime_or_0_default (result : VideoSearchResult) :
  startTime_or_0 result = default 0%Qc (startTime result).
Proof.
  unfold startTime_or_0. destruct (startTime result) as [t|]; [|done].
  simpl. by case_decide.
Qed.

(** X20: a click on the active video while it plays pauses it, marks it
    not playing and keeps it active, without any call of [play]; a
    second click, whose [play] resolves, makes it play again from where
    it was, not from the start of its segment. *)
Theorem handleVideoClick_pause_then_resume (resultId : jsstring)
    (result1 result2 : VideoSearchResult) (o : PlayOutcome) (s : State)
    (video : HTMLVideoElement) :
  videoRefs s !! resultId = Some video →
  paused video = false →
  activeVideoId s = Some resultId →
  let s1 := handleVideoClick resultId result1 o s in
  let s2 := handleVideoClick resultId result2 PlayResolved s1 in
  (videoRefs s1 !! resultId = Some (video_pause video)
   ∧ playing s1 resultId = false
   ∧ activeVideoId s1 = Some resultId
   ∧ console s1 = console s)
  ∧ (videoRefs s2 !! resultId = Some video
     ∧ playing s2 resultId = true
     ∧ activeVideoId s2 = Some resultId).
Proof.
  intros Hv Hp Ha. simpl.
  assert (E1 : handleVideoClick resultId result1 o s
          = s |> setVideoRefs (alter video_pause resultId)
              |> setIsPlaying (<[resultId := false]>)).
  { unfold handleVideoClick, handleVideoClick_begin.
    by rewrite Hv, decide_True, Hp by done. }
  rewrite E1. unfold playing. simpl.
  rewrite lookup_alter_eq, Hv, lookup_insert_eq. simpl. split; [done|].
  unfold handleVideoClick, handleVideoClick_begin. simpl.
  rewrite lookup_alter_eq, Hv. simpl. rewrite decide_True by done. simpl.
  rewrite lookup_alter_eq, lookup_alter_eq, Hv, lookup_insert_eq. simpl.
  destruct video as [p t]. simpl in Hp. subst p. done.
Qed.

Lemma handleVideoClick_pause_then_resume_witness :
  (videoRefs (handleVideoClick (lit "A") (sample_result "A") PlayResolved
                first_playing) !! lit "A"
   = Some (video_pause {| paused := false; currentTime := 0%Qc |})
   ∧ playing (handleVideoClick (lit "A") (sample_result "A") PlayResolved
                first_playing) (lit "A") = false
   ∧ activeVideoId (handleVideoClick (lit "A") (sample_result "A") PlayResolved
                      first_playing) = Some (lit "A")
   ∧ console (handleVideoClick (lit "A") (sample_result "A") PlayResolved
                first_playing) = console first_playing)
  ∧ (videoRefs (handleVideoClick (lit "A") (sample_result "A") PlayResolved
                  (handleVideoClick (lit "A") (sample_result "A") PlayResolved
                     first_playing)) !! lit "A"
     = Some {| paused := false; currentTime := 0%Qc |}
     ∧ playing (handleVideoClick (lit "A") (sample_result "A") PlayResolved
                  (handleVideoClick (lit "A") (sample_result "A") PlayResolved
                     first_playing)) (lit "A") = true
     ∧ activeVideoId (handleVideoClick (lit "A") (sample_result "A") PlayResolved
                        (handleVideoClick (lit "A") (sample_result "A")
                           PlayResolved first_playing)) = Some (lit "A")).
Proof.
  apply (handleVideoClick_pause_then_resume (lit "A") (sample_result "A")
           (sample_result "A") PlayResolved first_playing
           {| paused := false; currentTime := 0%Qc |}); reflexivity.
Defined.

(** What the start of a click on a video that is not the active one does
    to the video elements and to the marks. *)
Lemma switch_begin_lookup (resultId : jsstring) (s : State) (j : jsstring) :
  let s1 :=
    match activeVideoId s with
    | Some active =>
        if truthy active && bool_decide (is_Some (videoRefs s !! active))
        then s |> setVideoRefs (alter video_pause active)
               |> setIsPlaying (<[active := false]>)
        else s
    | None => s
    end in
  activeVideoId s1 = activeVideoId s
  ∧ console s1 = console s
  ∧ error s1 = error s
  ∧ (activeVideoId s ≠ Some j →
     videoRefs s1 !! j = videoRefs s !! j ∧ isPlaying s1 !! j = isPlaying s !! j).
Proof.
  cbv zeta. destruct (activeVideoId s) as [a|] eqn:Ea.
  - destruct (truthy a && bool_decide (is_Some (videoRefs s !! a))).
    + simpl. split; [done|]. split; [done|]. split; [done|].
      intros Hne. assert (a ≠ j) by congruence.
      by rewrite lookup_alter_ne, lookup_insert_ne.
    + split; [done|]. split; [done|]. split; [done|]. intros _. by split.
  - split; [done|]. split; [done|]. split; [done|]. intros _. by split.
Qed.

(** X21: a click on a mounted video that is not the active one, whose
    [play] resolves, makes it the active video, marks it playing, and
    leaves its element playing at the start time of the result, or at 0
    when the result has none. *)
Theorem handleVideoClick_switch (resultId : jsstring)
    (result : VideoSearchResult) (s : State) (video : HTMLVideoElement) :
  videoRefs s !! resultId = Some video →
  activeVideoId s ≠ Some resultId →
  let s' := handleVideoClick resultId result PlayResolved s in
  activeVideoId s' = Some resultId
  ∧ playing s' resultId = true
  ∧ videoRefs s' !! resultId
    = Some {| paused := false; currentTime := default 0%Qc (startTime result) |}.
Proof.
  intros Hv Ha. simpl.
  unfold handleVideoClick, handleVideoClick_begin.
  rewrite Hv, decide_False by done.
  destruct (switch_begin_lookup resultId s resultId) as (_ & _ & _ & Hl).
  destruct (Hl Ha) as [Hl1 _]. clear Hl. simpl in Hl1.
  set (s1 := match activeVideoId s with Some _ => _ | None => _ end) in *.
  unfold playing. simpl.
  rewrite lookup_insert_eq, !lookup_alter_eq, Hl1, Hv. simpl.
  by rewrite startTime_or_0_default.
Qed.

Lemma handleVideoClick_switch_witness :
  activeVideoId (handleVideoClick (lit "B") (sample_result "B") PlayResolved
                   first_playing) = Some (lit "B")
  ∧ playing (handleVideoClick (lit "B") (sample_result "B") PlayResolved
               first_playing) (lit "B") = true
  ∧ videoRefs (handleVideoClick (lit "B") (sample_result "B") PlayResolved
                 first_playing) !! lit "B"
    = Some {| paused := false;
              currentTime := default 0%Qc (startTime (sample_result "B")) |}.
Proof.
  apply (handleVideoClick_switch (lit "B") (sample_result "B") first_playing
           fresh_video); [reflexivity | vm_compute; discriminate].
Defined.

(** X22: a click on a mounted video that is not the active one pauses
    the element of the video that was active and marks it not playing,
    however the [play] of the clicked video settles, when the id of that
    video is not the empty string; the elements and the marks of all
    other results are left as they are. *)
Theorem handleVideoClick_pauses_previous (resultId active : jsstring)
    (result : VideoSearchResult) (o : PlayOutcome) (s : State)
    (video previous : HTMLVideoElement) :
  videoRefs s !! resultId = Some video →
  activeVideoId s = Some active →
  active ≠ resultId →
  active ≠ [] →
  videoRefs s !! active = Some previous →
  let s' := handleVideoClick resultId result o s in
  videoRefs s' !! active = Some (video_pause previous)
  ∧ playing s' active = false
  ∧ ∀ j, j ≠ active → j ≠ resultId →
      videoRefs s' !! j = videoRefs s !! j ∧ isPlaying s' !! j = isPlaying s !! j.
Proof.
  intros Hv Ha Hne Hne' Hp. simpl.
  unfold handleVideoClick, handleVideoClick_begin.
  rewrite Hv, decide_False by congruence. rewrite Ha.
  apply truthy_true in Hne'. rewrite Hne', Hp.
  rewrite bool_decide_eq_true_2 by by eexists. simpl.
  assert (Hne2 : resultId ≠ active) by congruence.
  unfold handleVideoClick_settle, playing.
  destruct o as [|[]]; simpl;
    repeat first [ rewrite lookup_alter_ne by done
                 | rewrite lookup_insert_ne by done
                 | rewrite lookup_alter_eq
                 | rewrite lookup_insert_eq ];
    rewrite Hp; simpl; (split; [done|]; split; [done|]);
    intros j Hj1 Hj2;
    repeat first [ rewrite lookup_alter_ne by done
                 | rewrite lookup_insert_ne by done ];
    done.
Qed.

Lemma handleVideoClick_pauses_previous_witness :
  videoRefs (handleVideoClick (lit "B") (sample_result "B") (PlayRejected false)
               first_playing) !! lit "A"
  = Some (video_pause {| paused := false; currentTime := 0%Qc |})
  ∧ playing (handleVideoClick (lit "B") (sample_result "B") (PlayRejected false)
               first_playing) (lit "A") = false
  ∧ ∀ j, j ≠ lit "A" → j ≠ lit "B" →
      videoRefs (handleVideoClick (lit "B") (sample_result "B")
                   (PlayRejected false) first_playing) !! j
      = videoRefs first_playing !! j
      ∧ isPlaying (handleVideoClick (lit "B") (sample_result "B")
                     (PlayRejected false) first_playing) !! j
        = isPlaying first_playing !! j.
Proof.
  apply (handleVideoClick_pauses_previous (lit "B") (lit "A") (sample_result "B")
           (PlayRejected false) first_playing fresh_video
           {| paused := false; currentTime := 0%Qc |});
    try reflexivity; vm_compute; discriminate.
Defined.

(** X23: when the [play] of a click is rejected, the clicked result is
    marked not playing, the active video is the one it was, nothing is
    shown to the user, and the failure is logged unless it is an
    [AbortError]. *)
Theorem handleVideoClick_rejected (resultId : jsstring)
    (result : VideoSearchResult) (abortError : bool) (s : State)
    (video : HTMLVideoElement) :
  videoRefs s !! resultId = Some video →
  activeVideoId s ≠ Some resultId ∨ paused video = true →
  let s' := handleVideoClick resultId result (PlayRejected abortError) s in
  playing s' resultId = false
  ∧ activeVideoId s' = activeVideoId s
  ∧ error s' = error s
  ∧ console s' = console s ++ (if abortError then [] else [LogPlayback]).
Proof.
  intros Hv Hc. simpl. unfold handleVideoClick, handleVideoClick_begin.
  rewrite Hv. unfold playing.
  destruct (decide (activeVideoId s = Some resultId)) as [Ha|Ha].
  - destruct Hc as [Hc | Hc]; [done|]. rewrite Hc.
    destruct abortError; simpl; rewrite lookup_insert_eq;
      by rewrite ?app_nil_r.
  - destruct (switch_begin_lookup resultId s resultId) as (H1 & H2 & H3 & _).
    simpl in H1, H2, H3.
    set (s1 := match activeVideoId s with Some _ => _ | None => _ end) in *.
    destruct abortError; simpl; rewrite lookup_insert_eq, H1, H2, H3;
      by rewrite ?app_nil_r.
Qed.

Lemma handleVideoClick_rejected_witness :
  playing (handleVideoClick (lit "B") (sample_result "B") (PlayRejected false)
             first_playing) (lit "B") = false
  ∧ activeVideoId (handleVideoClick (lit "B") (sample_result "B")
                     (PlayRejected false) first_playing)
    = activeVideoId first_playing
  ∧ error (handleVideoClick (lit "B") (sample_result "B") (PlayRejected false)
             first_playing) = error first_playing
  ∧ console (handleVideoClick (lit "B") (sample_result "B") (PlayRejected false)
               first_playing)
    = console first_playing ++ [LogPlayback].
Proof.
  apply (handleVideoClick_rejected (lit "B") (sample_result "B") false
           first_playing fresh_video);
    [reflexivity | left; vm_compute; discriminate].
Defined.

(** ** Unmounting *)

(** X24: the cleanup on unmount leaves every video element paused at the
    position it had, adds and removes none, and, unlike a new page of
    results, does not touch the active video or the playing marks;
    running it twice is the same as running it once. *)
Theorem unmount_cleanup_pauses (s : State) :
  (∀ i, videoRefs (unmount_cleanup s) !! i = video_pause <$> videoRefs s !! i)
  ∧ activeVideoId (unmount_cleanup s) = activeVideoId s
  ∧ isPlaying (unmount_cleanup s) = isPlaying s
  ∧ unmount_cleanup (unmount_cleanup s) = unmount_cleanup s.
Proof.
  assert (Hf : ∀ m : gmap jsstring HTMLVideoElement,
             (λ video, if negb (paused video) then video_pause video else video)
             <$> m = video_pause <$> m).
  { intros m. apply map_fmap_ext. intros i [[] t] _; done. }
  split; [|split; [done|split; [done|]]].
  - intros i. simpl. by rewrite Hf, lookup_fmap.
  - unfold unmount_cleanup, pause_all_videos, setVideoRefs. simpl.
    rewrite !Hf. f_equal. rewrite <- map_fmap_compose.
    apply map_fmap_ext. intros i [p t] _. done.
Qed.

(** ** [toggleSection] across sections and results *)

(** X25: a toggle changes one flag only: the other section of the same
    result, and both sections of every other result, read as before. *)
Theorem toggleSection_other_flags (resultId other : jsstring)
    (section section' : Section_) (s : State) :
  (other, section') ≠ (resultId, section) →
  expanded (expandedSections (toggleSection resultId section s)) other section'
  = expanded (expandedSections s) other section'.
Proof.
  intros Hne. unfold expanded. simpl.
  destruct (decide (resultId = other)) as [<-|Hr].
  - rewrite lookup_insert_eq. simpl.
    destruct (expandedSections s !! resultId) as [e|]; simpl;
      destruct section, section'; simpl; congruence.
  - by rewrite lookup_insert_ne.
Qed.

Lemma toggleSection_other_flags_witness :
  expanded (expandedSections (toggleSection (lit "r1") description_ initial))
    (lit "r1") transcript_
  = expanded (expandedSections initial) (lit "r1") transcript_.
Proof.
  apply (toggleSection_other_flags (lit "r1") (lit "r1") description_
           transcript_ initial).
  discriminate.
Defined.

(** X26: toggles commute: two toggles, of any results and sections,
    give the same state in either order. *)
Theorem toggleSection_commute (r1 r2 : jsstring) (sec1 sec2 : Section_)
    (s : State) :
  toggleSection r1 sec1 (toggleSection r2 sec2 s)
  = toggleSection r2 sec2 (toggleSection r1 sec1 s).
Proof.
  unfold toggleSection, setExpandedSections. simpl. f_equal.
  destruct (decide (r1 = r2)) as [<-|Hne].
  - rewrite !lookup_insert_eq, !insert_insert_eq. f_equal.
    destruct (expandedSections s !! r1) as [[d t]|]; simpl;
      destruct sec1, sec2; simpl; done.
  - rewrite !lookup_insert_ne by done. by apply insert_insert_ne.
Qed.

(** ** The captured queries *)




